(** * ReceiptScanner: the receipt normalizer and its display helpers

    A shallow embedding of

    - [src/app/api/analyze-receipt/route.ts]: the [POST] handler, that is
      the request guard, the call to the completion service, the
      fence-stripping, the JSON parse and the shape coercion of [taxes],
      [discounts] and [items];
    - [src/components/receipt-scanner.tsx]: the helpers [formatValue] and
      [calculateTotalDiscounts];

    together with the JavaScript built-ins these functions call
    ([String.prototype.trim], [String.prototype.replace] with a global
    literal pattern, [JSON.parse], [JSON.stringify], [Number.parseFloat],
    [Number.prototype.toFixed], [ToString]).

    Conventions.
    - A JavaScript string is a sequence of UTF-16 code units; a code unit is
      an integer ([Z]) and a string a [list Z].  [lit] turns a Rocq string
      literal into such a sequence, [json_text] does the same and reads
      every apostrophe as a quotation mark, so that JSON texts can be
      written down.
    - A JavaScript number is an IEEE 754 binary64 value: [spec_float] with
      precision 53 and maximal exponent 1024, with the operations of
      [SpecFloat].
    - [undefined] is the [None] of an [option value]; a thrown exception is
      the [Throw] of a [completion]. *)

From Stdlib Require Import ZArith List Bool String Ascii Lia Permutation.
From Stdlib Require Import SpecFloat.
Import ListNotations.
Local Open Scope Z_scope.

(* ================================================================= *)
(** ** Strings *)

Module Str.

Definition jsstring := list Z.

Definition lit (s : string) : jsstring :=
  map (fun a => Z.of_N (N_of_ascii a)) (list_ascii_of_string s).

(** Apostrophes (39) are read as quotation marks (34). *)
Definition json_text (s : string) : jsstring :=
  map (fun c => if c =? 39 then 34 else c) (lit s).

Fixpoint eqb (s t : jsstring) : bool :=
  match s, t with
  | [], [] => true
  | a :: s', b :: t' => (a =? b) && eqb s' t'
  | _, _ => false
  end.

(** [WhiteSpace] and [LineTerminator] of ECMAScript: what [trim] and
    [parseFloat] strip. *)
Definition is_white_space (c : Z) : bool :=
  (c =? 9) || (c =? 10) || (c =? 11) || (c =? 12) || (c =? 13) || (c =? 32)
  || (c =? 160) || (c =? 5760) || ((8192 <=? c) && (c <=? 8202))
  || (c =? 8232) || (c =? 8233) || (c =? 8239) || (c =? 8287)
  || (c =? 12288) || (c =? 65279).

Fixpoint trimStart (s : jsstring) : jsstring :=
  match s with
  | [] => []
  | c :: r => if is_white_space c then trimStart r else s
  end.

Definition trimEnd (s : jsstring) : jsstring := rev (trimStart (rev s)).

(** [String.prototype.trim] *)
Definition trim (s : jsstring) : jsstring := trimEnd (trimStart s).

Fixpoint starts_with (p s : jsstring) : bool :=
  match p, s with
  | [], _ => true
  | a :: p', b :: s' => (a =? b) && starts_with p' s'
  | _ :: _, [] => false
  end.

(** [s.replace(/p/g, e)], [e] the empty string, for a pattern [p] without metacharacters: every
    leftmost, non-overlapping occurrence of [p] is deleted.  [skip] counts
    the code units of the current occurrence still to be dropped. *)
Fixpoint remove_from (p : jsstring) (skip : nat) (s : jsstring) : jsstring :=
  match s with
  | [] => []
  | c :: r =>
      match skip with
      | S k => remove_from p k r
      | O => if starts_with p s then remove_from p (Nat.pred (List.length p)) r
             else c :: remove_from p O r
      end
  end.

Definition remove_all (p s : jsstring) : jsstring := remove_from p O s.

Fixpoint join (sep : jsstring) (l : list jsstring) : jsstring :=
  match l with
  | [] => []
  | [x] => x
  | x :: r => x ++ sep ++ join sep r
  end.

(** A string of white space only (the empty string included). *)
Definition all_ws (s : jsstring) : bool := forallb is_white_space s.

Definition is_digit (c : Z) : bool := (48 <=? c) && (c <=? 57).

(** Longest prefix of decimal digits, and what follows it. *)
Fixpoint span_digits (s : jsstring) : jsstring * jsstring :=
  match s with
  | [] => ([], [])
  | c :: r => if is_digit c then let (d, t) := span_digits r in (c :: d, t)
              else ([], s)
  end.

(** Value of a sequence of decimal digits. *)
Definition digits_value (d : jsstring) : Z :=
  fold_left (fun acc c => 10 * acc + (c - 48)) d 0.

Fixpoint uint_chars (u : Decimal.uint) : jsstring :=
  match u with
  | Decimal.Nil => []
  | Decimal.D0 u => 48 :: uint_chars u
  | Decimal.D1 u => 49 :: uint_chars u
  | Decimal.D2 u => 50 :: uint_chars u
  | Decimal.D3 u => 51 :: uint_chars u
  | Decimal.D4 u => 52 :: uint_chars u
  | Decimal.D5 u => 53 :: uint_chars u
  | Decimal.D6 u => 54 :: uint_chars u
  | Decimal.D7 u => 55 :: uint_chars u
  | Decimal.D8 u => 56 :: uint_chars u
  | Decimal.D9 u => 57 :: uint_chars u
  end.

(** Decimal representation of a non-negative integer, without leading
    zeros ("0" for zero). *)
Definition decimal (n : Z) : jsstring := uint_chars (N.to_uint (Z.to_N n)).

End Str.

Export Str.

(* ================================================================= *)
(** ** Numbers *)

Module Num.

Definition number := spec_float.

Definition prec : Z := 53.
Definition emax : Z := 1024.

Definition zero : number := S754_zero false.

(** [x + y] on numbers. *)
Definition add : number -> number -> number := SFadd prec emax.

Definition is_nan (x : number) : bool :=
  match x with S754_nan => true | _ => false end.

Definition is_zero (x : number) : bool :=
  match x with S754_zero _ => true | _ => false end.

(** [ToBoolean] of a number: false for [+0], [-0] and [NaN]. *)
Definition to_boolean (x : number) : bool := negb (is_zero x || is_nan x).

(** Structural equality; on the results of the operations below, which
    are in canonical form, this is [Object.is]. *)
Definition same (x y : number) : bool :=
  match x, y with
  | S754_zero a, S754_zero b => Bool.eqb a b
  | S754_infinity a, S754_infinity b => Bool.eqb a b
  | S754_nan, S754_nan => true
  | S754_finite a m e, S754_finite b n f => Bool.eqb a b && Pos.eqb m n && (e =? f)
  | _, _ => false
  end.


(** The number nearest to [n / d] (ties to even). *)
Definition of_ratio (neg : bool) (n d : positive) : number :=
  let '(q, e, l) := SFdiv_core_binary prec emax (Zpos n) 0 (Zpos d) 0 in
  binary_round_aux prec emax neg q e l.

(** The number nearest to [m * 10 ^ e], for [m >= 0]: the value of a
    decimal literal with digits [m] and exponent [e]. *)
Definition of_decimal (neg : bool) (m e : Z) : number :=
  match m with
  | Z0 => S754_zero neg
  | Zpos p =>
      if 0 <=? e then binary_round prec emax neg (p * Z.to_pos (10 ^ e)) 0
      else of_ratio neg p (Z.to_pos (10 ^ (- e)))
  | Zneg _ => S754_nan
  end.

(** The number of an integer. *)
Definition of_Z (z : Z) : number := binary_normalize prec emax z 0 false.

(** [m * 2 ^ n] *)
Definition shift (m : positive) (n : nat) : positive := Nat.iter n xO m.

(** The number of a whole number [v] of at most 53 bits, with sign [s]:
    the mantissa is [v] shifted to 53 bits. *)
Definition whole (s : bool) (v : positive) : number :=
  S754_finite s (shift v (Z.to_nat (prec - Zpos (digits2_pos v))))
    (Zpos (digits2_pos v) - prec).

(** The number of an integer below [2 ^ 53] in absolute value, in closed
    form. *)
Definition of_int (k : Z) : number :=
  match k with
  | Z0 => S754_zero false
  | Zpos v => whole false v
  | Zneg v => whole true v
  end.

(** A positive finite number [m * 2 ^ e] as a fraction. *)
Definition fraction (m : positive) (e : Z) : Z * Z :=
  if 0 <=? e then (Zpos m * 2 ^ e, 1) else (Zpos m, 2 ^ (- e)).

(** [num / den < 10 ^ n] *)
Definition lt_pow10 (f : Z * Z) (n : Z) : bool :=
  let (num, den) := f in
  if 0 <=? n then num <? 10 ^ n * den else num * 10 ^ (- n) <? den.

(** Least [n] from [n] upwards with [x < 10 ^ n]. *)
Fixpoint exp10_up (fuel : nat) (f : Z * Z) (n : Z) : Z :=
  match fuel with
  | O => n
  | S k => if lt_pow10 f n then n else exp10_up k f (n + 1)
  end.

(** Least [n] from [n] downwards with [x < 10 ^ n], given [x < 10 ^ n]. *)
Fixpoint exp10_down (fuel : nat) (f : Z * Z) (n : Z) : Z :=
  match fuel with
  | O => n
  | S k => if lt_pow10 f (n - 1) then exp10_down k f (n - 1) else n
  end.

(** The [n] with [10 ^ (n - 1) <= x < 10 ^ n] for [x = m * 2 ^ e].  The
    search starts at an estimate from the binary logarithm; binary64 values
    lie between [1e-324] and [1e309], so 800 steps either way reach [n]
    from any start in that range. *)
Definition exp10 (m : positive) (e : Z) : Z :=
  let f := fraction m e in
  let est := ((Zpos (digits2_pos m) + e) * 1233) / 4096 in
  exp10_down 800 f (exp10_up 800 f est).

(** [floor (x / 10 ^ p)] and whether the remainder is below, at or above
    one half. *)
Definition scaled (f : Z * Z) (p : Z) : Z * comparison :=
  let (num, den) := f in
  let (a, b) := if 0 <=? p then (num, den * 10 ^ p) else (num * 10 ^ (- p), den) in
  (a / b, (2 * (a mod b)) ?= b).

(** The candidate with [k] digits for [Number::toString]: the integer [s]
    nearest to [x / 10 ^ (n - k)] among those whose decimal [s * 10 ^ (n - k)]
    reads back as [x]. *)
Definition candidate (x : number) (f : Z * Z) (n k : Z) : option Z :=
  let (lo, half) := scaled f (n - k) in
  let hi := lo + 1 in
  let ok s := same (of_decimal false s (n - k)) x in
  match ok lo, ok hi with
  | true, true =>
      match half with
      | Lt => Some lo
      | Gt => Some hi
      | Eq => Some (if Z.even lo then lo else hi)
      end
  | true, false => Some lo
  | false, true => Some hi
  | false, false => None
  end.

Fixpoint shortest (fuel : nat) (x : number) (f : Z * Z) (n k : Z) : Z * Z :=
  match fuel with
  | O => (fst (scaled f (n - k)), k)
  | S fuel' =>
      match candidate x f n k with
      | Some s => (s, k)
      | None => shortest fuel' x f n (k + 1)
      end
  end.

(** [Number::toString] (radix 10) of a positive finite number. *)
Definition toString_pos (m : positive) (e : Z) : jsstring :=
  let x := S754_finite false m e in
  let f := fraction m e in
  let n0 := exp10 m e in
  let '(s, k0) := shortest 17 x f n0 1 in
  (* [s = 10 ^ k0] happens when rounding up reaches the next power of ten *)
  let '(ds, n) := if s =? 10 ^ k0 then (lit "1", n0 + 1) else (decimal s, n0) in
  let k := Z.of_nat (List.length ds) in
  if (k <=? n) && (n <=? 21) then ds ++ repeat 48 (Z.to_nat (n - k))
  else if (0 <? n) && (n <=? 21) then
    firstn (Z.to_nat n) ds ++ lit "." ++ skipn (Z.to_nat n) ds
  else if (-6 <? n) && (n <=? 0) then
    lit "0." ++ repeat 48 (Z.to_nat (- n)) ++ ds
  else
    let ex := (if 0 <=? n - 1 then lit "+" else lit "-") ++ decimal (Z.abs (n - 1)) in
    match ds with
    | [d] => [d] ++ lit "e" ++ ex
    | d :: r => [d] ++ lit "." ++ r ++ lit "e" ++ ex
    | [] => []
    end.

(** [Number::toString] *)
Definition toString (x : number) : jsstring :=
  match x with
  | S754_nan => lit "NaN"
  | S754_zero _ => lit "0"
  | S754_infinity s => (if s then lit "-" else []) ++ lit "Infinity"
  | S754_finite s m e => (if s then lit "-" else []) ++ toString_pos m e
  end.

(** The integer nearest to [100 * m * 2 ^ e], the larger one in a tie. *)
Definition hundredths (m : positive) (e : Z) : Z :=
  if 0 <=? e then Zpos m * 100 * 2 ^ e
  else (2 * (Zpos m * 100) + 2 ^ (- e)) / (2 * 2 ^ (- e)).

(** Is [m * 2 ^ e >= 10 ^ 21]? *)
Definition ge_1e21 (m : positive) (e : Z) : bool :=
  negb (lt_pow10 (fraction m e) 21).

(** The digits of [n] with a point before the last two, padded with zeros
    to at least three digits. *)
Definition two_places (n : Z) : jsstring :=
  let d := decimal n in
  let d := repeat 48 (3 - List.length d)%nat ++ d in
  firstn (List.length d - 2)%nat d ++ lit "." ++ skipn (List.length d - 2)%nat d.

(** [Number.prototype.toFixed] with argument 2 *)
Definition toFixed2 (x : number) : jsstring :=
  match x with
  | S754_nan | S754_infinity _ => toString x
  | S754_zero _ => lit "0.00"
  | S754_finite s m e =>
      (if s then lit "-" else []) ++
      (if ge_1e21 m e then toString_pos m e else two_places (hundredths m e))
  end.

End Num.

Export Num.


(* ================================================================= *)
(** ** Values *)

Module Value.

(** The values [JSON.parse] produces.  The properties of an object are
    kept in property order (array indices in ascending order first, then
    the other keys in order of creation), each key once. *)
#[local] Unset Elimination Schemes.
Inductive value :=
| VNull
| VBool (b : bool)
| VNum (n : number)
| VStr (s : jsstring)
| VArr (elements : list value)
| VObj (properties : list (jsstring * value)).
#[local] Set Elimination Schemes.

Inductive error := TypeError.

Inductive completion (A : Type) :=
| Return (a : A)
| Throw (e : error).

Arguments Return {A} a.
Arguments Throw {A} e.

Definition bind {A B} (c : completion A) (k : A -> completion B) : completion B :=
  match c with
  | Return a => k a
  | Throw e => Throw e
  end.

Notation "x <- c ;; k" := (bind c (fun x => k))
  (at level 61, c at next level, right associativity).

(** [l.map(f)] for an [f] that may throw. *)
Fixpoint map_m {A B} (f : A -> completion B) (l : list A) : completion (list B) :=
  match l with
  | [] => Return []
  | a :: r => b <- f a ;; bs <- map_m f r ;; Return (b :: bs)
  end.

(** [l.reduce(f, init)] for an [f] that may throw. *)
Fixpoint reduce_m {A B} (f : B -> A -> completion B) (l : list A) (init : B)
  : completion B :=
  match l with
  | [] => Return init
  | a :: r => b <- f init a ;; reduce_m f r b
  end.

(** [ToBoolean] *)
Definition truthy (v : value) : bool :=
  match v with
  | VNull => false
  | VBool b => b
  | VNum n => Num.to_boolean n
  | VStr s => match s with [] => false | _ => true end
  | VArr _ | VObj _ => true
  end.

(** [Array.isArray] *)
Definition isArray (v : value) : bool :=
  match v with VArr _ => true | _ => false end.

Inductive type_name := Tobject | Tboolean | Tnumber | Tstring.

(** [typeof]; [null] and arrays are ["object"]. *)
Definition typeof (v : value) : type_name :=
  match v with
  | VNull | VArr _ | VObj _ => Tobject
  | VBool _ => Tboolean
  | VNum _ => Tnumber
  | VStr _ => Tstring
  end.

Definition is_object (v : value) : bool :=
  match typeof v with Tobject => true | _ => false end.

(** An array index: the canonical decimal of an integer below [2^32 - 1]. *)
Definition array_index (k : jsstring) : option Z :=
  match k with
  | [] => None
  | c :: r =>
      if forallb is_digit k
         && (negb (c =? 48) || match r with [] => true | _ => false end)
         && (digits_value k <? 4294967295)
      then Some (digits_value k) else None
  end.

Fixpoint lookup (k : jsstring) (ps : list (jsstring * value)) : option value :=
  match ps with
  | [] => None
  | (k', v) :: r => if Str.eqb k k' then Some v else lookup k r
  end.

Fixpoint update (k : jsstring) (v : value) (ps : list (jsstring * value))
  : list (jsstring * value) :=
  match ps with
  | [] => []
  | (k', v') :: r => if Str.eqb k k' then (k', v) :: r else (k', v') :: update k v r
  end.

(** Where a new array-index key goes: before the first key that is not an
    array index or is a larger one. *)
Fixpoint insert_index (i : Z) (k : jsstring) (v : value)
  (ps : list (jsstring * value)) : list (jsstring * value) :=
  match ps with
  | [] => [(k, v)]
  | (k', v') :: r =>
      match array_index k' with
      | Some j => if j <? i then (k', v') :: insert_index i k v r else (k, v) :: ps
      | None => (k, v) :: ps
      end
  end.

(** [CreateDataProperty] and [Set] on an ordinary object: an existing key
    keeps its place and takes the new value, a new key is created. *)
Definition define (k : jsstring) (v : value) (ps : list (jsstring * value))
  : list (jsstring * value) :=
  match lookup k ps with
  | Some _ => update k v ps
  | None =>
      match array_index k with
      | Some i => insert_index i k v ps
      | None => ps ++ [(k, v)]
      end
  end.

(** [v.k] or [v[k]] for a [v] that is not [null]; [None] is [undefined].
    Own properties only: the inherited members are methods, which are not
    values of this type, and the program reads none of them this way. *)
Definition get (v : value) (k : jsstring) : option value :=
  match v with
  | VObj ps => lookup k ps
  | VArr l =>
      match array_index k with
      | Some i => nth_error l (Z.to_nat i)
      | None => if Str.eqb k (lit "length")
                then Some (VNum (Num.of_Z (Z.of_nat (List.length l)))) else None
      end
  | VStr s =>
      match array_index k with
      | Some i => option_map (fun c => VStr [c]) (nth_error s (Z.to_nat i))
      | None => if Str.eqb k (lit "length")
                then Some (VNum (Num.of_Z (Z.of_nat (List.length s)))) else None
      end
  | _ => None
  end.

(** [v.k = x] as the program uses it: on an object. *)
Definition set (v : value) (k : jsstring) (x : value) : value :=
  match v with
  | VObj ps => VObj (define k x ps)
  | _ => v
  end.

(** [ToString].  An array is joined with commas, [null] elements giving
    the empty string; an object gives ["[object Object]"] through the
    inherited [toString], and throws when an own property hides it (no
    value of this type is callable). *)
Fixpoint to_string (v : value) : completion jsstring :=
  match v with
  | VNull => Return (lit "null")
  | VBool b => Return (if b then lit "true" else lit "false")
  | VNum n => Return (Num.toString n)
  | VStr s => Return s
  | VArr l =>
      parts <- map_m (fun x => match x with VNull => Return [] | _ => to_string x end) l ;;
      Return (join (lit ",") parts)
  | VObj ps =>
      match lookup (lit "toString") ps with
      | Some _ => Throw TypeError
      | None => Return (lit "[object Object]")
      end
  end.

(** [ToString] of a possibly undefined value. *)
Definition to_string_opt (v : option value) : completion jsstring :=
  match v with
  | None => Return (lit "undefined")
  | Some x => to_string x
  end.

End Value.

Export Value.

(* ================================================================= *)
(** ** JSON *)

Module JSON.

Definition hex_digit (n : Z) : Z := if n <? 10 then 48 + n else 87 + n.

(** [\uXXXX], lower case. *)
Definition unicode_escape (c : Z) : jsstring :=
  [92; 117; hex_digit (c / 4096 mod 16); hex_digit (c / 256 mod 16);
   hex_digit (c / 16 mod 16); hex_digit (c mod 16)].

Definition is_lead (c : Z) : bool := (55296 <=? c) && (c <=? 56319).
Definition is_trail (c : Z) : bool := (56320 <=? c) && (c <=? 57343).

Definition quote_unit (c : Z) : jsstring :=
  if c =? 8 then lit "\b"
  else if c =? 9 then lit "\t"
  else if c =? 10 then lit "\n"
  else if c =? 12 then lit "\f"
  else if c =? 13 then lit "\r"
  else if c =? 34 then [92; 34]
  else if c =? 92 then [92; 92]
  else if (c <? 32) || is_lead c || is_trail c then unicode_escape c
  else [c].

Fixpoint quote_body (s : jsstring) : jsstring :=
  match s with
  | [] => []
  | c :: r =>
      match r with
      | d :: r' =>
          if is_lead c && is_trail d then c :: d :: quote_body r'
          else quote_unit c ++ quote_body r
      | [] => quote_unit c
      end
  end.

(** [QuoteJSONString] *)
Definition quote (s : jsstring) : jsstring := [34] ++ quote_body s ++ [34].

(** [JSON.stringify] of a value, without indentation. *)
Fixpoint stringify (v : value) : jsstring :=
  match v with
  | VNull => lit "null"
  | VBool b => if b then lit "true" else lit "false"
  | VNum n =>
      match n with
      | S754_nan | S754_infinity _ => lit "null"
      | _ => Num.toString n
      end
  | VStr s => quote s
  | VArr l => lit "[" ++ join (lit ",") (map stringify l) ++ lit "]"
  | VObj ps =>
      lit "{" ++
      join (lit ",") (map (fun kv => quote (fst kv) ++ lit ":" ++ stringify (snd kv)) ps)
      ++ lit "}"
  end.

(** *** [JSON.parse] *)

Inductive token :=
| TLBrace | TRBrace | TLBracket | TRBracket | TColon | TComma
| TValue (v : value).

Definition hex_value (c : Z) : option Z :=
  if is_digit c then Some (c - 48)
  else if (97 <=? c) && (c <=? 102) then Some (c - 87)
  else if (65 <=? c) && (c <=? 70) then Some (c - 55)
  else None.

Definition hex4 (a b c d : Z) : option Z :=
  match hex_value a, hex_value b, hex_value c, hex_value d with
  | Some x, Some y, Some z, Some w => Some (4096 * x + 256 * y + 16 * z + w)
  | _, _, _, _ => None
  end.

(** The code unit of a one-letter escape. *)
Definition simple_escape (c : Z) : option Z :=
  if c =? 34 then Some 34          (* quotation mark *)
  else if c =? 92 then Some 92     (* reverse solidus *)
  else if c =? 47 then Some 47     (* solidus *)
  else if c =? 98 then Some 8      (* b: backspace *)
  else if c =? 102 then Some 12    (* f: form feed *)
  else if c =? 110 then Some 10    (* n: line feed *)
  else if c =? 114 then Some 13    (* r: carriage return *)
  else if c =? 116 then Some 9     (* t: tab *)
  else None.

Definition more (c : Z) (n : nat) (r : option (jsstring * nat))
  : option (jsstring * nat) :=
  match r with
  | Some (s, k) => Some (c :: s, (n + k)%nat)
  | None => None
  end.

(** The string after an opening quotation mark: its code units and the
    number of code units read, the closing quotation mark included. *)
Fixpoint lex_string (s : jsstring) : option (jsstring * nat) :=
  match s with
  | [] => None
  | c :: r =>
      if c =? 34 then Some ([], 1%nat)
      else if c =? 92 then
        match r with
        | e :: r' =>
            if e =? 117 then
              match r' with
              | h1 :: h2 :: h3 :: h4 :: r'' =>
                  match hex4 h1 h2 h3 h4 with
                  | Some u => more u 6 (lex_string r'')
                  | None => None
                  end
              | _ => None
              end
            else
              match simple_escape e with
              | Some u => more u 2 (lex_string r')
              | None => None
              end
        | [] => None
        end
      else if c <? 32 then None
      else more c 1 (lex_string r)
  end.

Definition is_e (c : Z) : bool := (c =? 101) || (c =? 69).

(** A JSON number at the head of [s]: its value and its length. *)
Definition lex_number (s : jsstring) : option (number * nat) :=
  let (neg, s1) := match s with
                   | c :: r => if c =? 45 then (true, r) else (false, s)
                   | [] => (false, s)
                   end in
  let (ip, s2) := match s1 with
                  | c :: r => if c =? 48 then ([48], r) else span_digits s1
                  | [] => ([], s1)
                  end in
  match ip with
  | [] => None
  | _ :: _ =>
      let frac := match s2 with
                  | c :: r =>
                      if c =? 46 then
                        match span_digits r with
                        | ([], _) => None
                        | (fp, s3) => Some (fp, s3)
                        end
                      else Some ([], s2)
                  | [] => Some ([], s2)
                  end in
      match frac with
      | None => None
      | Some (fp, s3) =>
          let expo := match s3 with
                      | c :: r =>
                          if is_e c then
                            let (eneg, r1) :=
                              match r with
                              | d :: r' => if d =? 45 then (true, r')
                                           else if d =? 43 then (false, r')
                                           else (false, r)
                              | [] => (false, r)
                              end in
                            match span_digits r1 with
                            | ([], _) => None
                            | (ed, s4) =>
                                Some (if eneg then - digits_value ed else digits_value ed, s4)
                            end
                          else Some (0, s3)
                      | [] => Some (0, s3)
                      end in
          match expo with
          | None => None
          | Some (ex, s4) =>
              Some (Num.of_decimal neg (digits_value (ip ++ fp))
                      (ex - Z.of_nat (List.length fp)),
                    (List.length s - List.length s4)%nat)
          end
      end
  end.

(** The token that starts with the code unit [c], followed by [r], and
    its length. *)
Definition lex_token (c : Z) (r : jsstring) : option (token * nat) :=
  if c =? 123 then Some (TLBrace, 1%nat)
  else if c =? 125 then Some (TRBrace, 1%nat)
  else if c =? 91 then Some (TLBracket, 1%nat)
  else if c =? 93 then Some (TRBracket, 1%nat)
  else if c =? 58 then Some (TColon, 1%nat)
  else if c =? 44 then Some (TComma, 1%nat)
  else if c =? 34 then
    match lex_string r with
    | Some (s, n) => Some (TValue (VStr s), S n)
    | None => None
    end
  else if (c =? 45) || is_digit c then
    match lex_number (c :: r) with
    | Some (x, n) => Some (TValue (VNum x), n)
    | None => None
    end
  else if starts_with (lit "true") (c :: r) then Some (TValue (VBool true), 4%nat)
  else if starts_with (lit "false") (c :: r) then Some (TValue (VBool false), 5%nat)
  else if starts_with (lit "null") (c :: r) then Some (TValue VNull, 4%nat)
  else None.

(** JSON white space: tab, line feed, carriage return, space. *)
Definition is_json_ws (c : Z) : bool :=
  (c =? 9) || (c =? 10) || (c =? 13) || (c =? 32).

(** The tokens of a text; [skip] counts the code units of the current
    token still to be passed over. *)
Fixpoint tokenize (skip : nat) (s : jsstring) : option (list token) :=
  match s with
  | [] => Some []
  | c :: r =>
      match skip with
      | S k => tokenize k r
      | O =>
          if is_json_ws c then tokenize O r
          else
            match lex_token c r with
            | Some (t, n) =>
                match tokenize (Nat.pred n) r with
                | Some ts => Some (t :: ts)
                | None => None
                end
            | None => None
            end
      end
  end.

(** The containers that are open: an array with its elements so far, last
    first; an object with its properties so far and the key that waits for
    its value. *)
Inductive frame :=
| FArr (acc : list value)
| FObj (ps : list (jsstring * value)) (key : option jsstring).

(** What may come next. *)
Inductive mode :=
| MValue      (* a value *)
| MArrStart   (* a value or a closing bracket *)
| MObjStart   (* a key or a closing brace *)
| MKey        (* a key *)
| MColon      (* a colon *)
| MAfter      (* a comma or the closing of the container *)
| MDone (v : value).

Definition push (v : value) (st : list frame) : option (mode * list frame) :=
  match st with
  | [] => Some (MDone v, [])
  | FArr acc :: st' => Some (MAfter, FArr (v :: acc) :: st')
  | FObj ps (Some k) :: st' => Some (MAfter, FObj (define k v ps) None :: st')
  | FObj _ None :: _ => None
  end.

Definition close_array (st : list frame) : option (mode * list frame) :=
  match st with
  | FArr acc :: st' => push (VArr (rev acc)) st'
  | _ => None
  end.

Definition close_object (st : list frame) : option (mode * list frame) :=
  match st with
  | FObj ps None :: st' => push (VObj ps) st'
  | _ => None
  end.

Definition open_key (k : jsstring) (st : list frame) : option (mode * list frame) :=
  match st with
  | FObj ps None :: st' => Some (MColon, FObj ps (Some k) :: st')
  | _ => None
  end.

Definition step (m : mode) (st : list frame) (t : token)
  : option (mode * list frame) :=
  match m, t with
  | (MValue | MArrStart), TValue v => push v st
  | (MValue | MArrStart), TLBracket => Some (MArrStart, FArr [] :: st)
  | (MValue | MArrStart), TLBrace => Some (MObjStart, FObj [] None :: st)
  | MArrStart, TRBracket => close_array st
  | MObjStart, TRBrace => close_object st
  | (MObjStart | MKey), TValue (VStr k) => open_key k st
  | MColon, TColon => Some (MValue, st)
  | MAfter, TComma =>
      match st with
      | FArr _ :: _ => Some (MValue, st)
      | FObj _ None :: _ => Some (MKey, st)
      | _ => None
      end
  | MAfter, TRBracket => close_array st
  | MAfter, TRBrace => close_object st
  | _, _ => None
  end.

Fixpoint run (m : mode) (st : list frame) (ts : list token) : option value :=
  match ts with
  | [] => match m with MDone v => Some v | _ => None end
  | t :: r =>
      match step m st t with
      | Some (m', st') => run m' st' r
      | None => None
      end
  end.

(** [JSON.parse]; [None] is the [SyntaxError]. *)
Definition parse (text : jsstring) : option value :=
  match tokenize O text with
  | Some ts => run MValue [] ts
  | None => None
  end.

(** [Number.parseFloat] of a string: the longest prefix, after leading
    white space, that is a decimal literal. *)
Definition parseFloat (input : jsstring) : number :=
  let s := trimStart input in
  let (neg, s1) := match s with
                   | c :: r => if c =? 45 then (true, r)
                               else if c =? 43 then (false, r) else (false, s)
                   | [] => (false, s)
                   end in
  if starts_with (lit "Infinity") s1 then S754_infinity neg
  else
    let (ip, s2) := span_digits s1 in
    let (fp, s3) := match s2 with
                    | c :: r => if c =? 46 then span_digits r else ([], s2)
                    | [] => ([], s2)
                    end in
    match ip ++ fp with
    | [] => S754_nan
    | ds =>
        let ex := match s3 with
                  | c :: r =>
                      if is_e c then
                        let (eneg, r1) :=
                          match r with
                          | d :: r' => if d =? 45 then (true, r')
                                       else if d =? 43 then (false, r')
                                       else (false, r)
                          | [] => (false, r)
                          end in
                        match span_digits r1 with
                        | ([], _) => 0
                        | (ed, _) => if eneg then - digits_value ed else digits_value ed
                        end
                      else 0
                  | [] => 0
                  end in
        Num.of_decimal neg (digits_value ds) (ex - Z.of_nat (List.length fp))
    end.

End JSON.


(* ================================================================= *)
(** ** The extraction endpoint: [src/app/api/analyze-receipt/route.ts] *)

Module Route.

(** The text of the prompt before and after the receipt text, line by
    line (apostrophes stand for quotation marks). *)
Definition prompt_before : jsstring :=
  join [10] (map json_text [
     EmptyString;
     "      Analyze this receipt text and organize it into a structured format."%string;
     "      "%string;
     "      RECEIPT TEXT:"%string;
     "      "%string]).

Definition prompt_after : jsstring :=
  join [10] (map json_text [
     EmptyString;
     "      "%string;
     "      INSTRUCTIONS:"%string;
     "      1. Extract the following information in a clean, structured JSON format:"%string;
     "         - merchant: The store or business name"%string;
     "         - date: The purchase date in YYYY-MM-DD format (if unclear, use 'Unknown')"%string;
     "         - total: The total amount as a number (without currency symbols)"%string;
     "         - items: An array of purchased items, each with:"%string;
     "           * name: Item description"%string;
     "           * price: Numeric price (without currency symbols)"%string;
     "           * quantity: Numeric quantity if available"%string;
     "         - paymentMethod: Method of payment (credit, cash, etc.)"%string;
     "         - taxes: Format as an array of objects, each with 'type' and 'amount' as a number"%string;
     "         - discounts: Format as an array of objects, each with 'type' and 'amount' as a number"%string;
     "      "%string;
     "      2. For prices, taxes, and discounts:"%string;
     "         - Extract numeric values only (remove $ or other currency symbols)"%string;
     "         - If a value is a percentage, convert it to its decimal equivalent"%string;
     "         - If a value cannot be determined, use null instead of leaving it blank"%string;
     "      "%string;
     "      3. For dates:"%string;
     "         - Try to standardize in YYYY-MM-DD format"%string;
     "         - If only partial date information is available, make your best guess"%string;
     "         - If completely unclear, use 'Unknown'"%string;
     "      "%string;
     "      4. For items:"%string;
     "         - Separate distinct items even if formatting is unclear"%string;
     "         - Include quantity if available"%string;
     "         - Extract price as a numeric value"%string;
     "      "%string;
     "      EXAMPLE OUTPUT FORMAT:"%string;
     "      {"%string;
     "        'merchant': 'Store Name',"%string;
     "        'date': '2023-04-15',"%string;
     "        'total': 42.99,"%string;
     "        'items': ["%string;
     "          {"%string;
     "            'name': 'Product Name',"%string;
     "            'price': 12.99,"%string;
     "            'quantity': 2"%string;
     "          }"%string;
     "        ],"%string;
     "        'paymentMethod': 'Credit Card',"%string;
     "        'taxes': ["%string;
     "          {"%string;
     "            'type': 'Sales Tax',"%string;
     "            'amount': 3.45"%string;
     "          }"%string;
     "        ],"%string;
     "        'discounts': ["%string;
     "          {"%string;
     "            'type': 'Member Discount',"%string;
     "            'amount': 5.00"%string;
     "          }"%string;
     "        ]"%string;
     "      }"%string;
     "      "%string;
     "      Return ONLY the JSON object without any additional text, markdown formatting, or code blocks."%string;
     "    "%string]).

Definition prompt (text : jsstring) : jsstring :=
  prompt_before ++ text ++ prompt_after.

Definition fence_json : jsstring := lit "```json".
Definition fence : jsstring := lit "```".

(** Lines 115-118: both fence markers are replaced by the empty string,
    the longer one first, and the result is trimmed. *)
Definition cleanedText (generatedText : jsstring) : jsstring :=
  trim (remove_all fence (remove_all fence_json generatedText)).

Definition taxes : jsstring := lit "taxes".
Definition discounts : jsstring := lit "discounts".
Definition items : jsstring := lit "items".

(** Lines 125-131 for [taxes], lines 134-140 for [discounts]: a truthy
    field that is not an array becomes an array, of the field itself when
    it is an object and empty otherwise. *)
Definition ensure_charges (field : jsstring) (parsedData : value) : value :=
  match get parsedData field with
  | Some x =>
      if truthy x && negb (isArray x) then
        match typeof x with
        | Tobject => set parsedData field (VArr [x])
        | _ => set parsedData field (VArr [])
        end
      else parsedData
  | None => parsedData
  end.

(** Lines 143-145: a truthy [items] that is not an array is wrapped. *)
Definition ensure_items (parsedData : value) : value :=
  match get parsedData items with
  | Some x =>
      if truthy x && negb (isArray x) then set parsedData items (VArr [x])
      else parsedData
  | None => parsedData
  end.

(** Lines 123-146: the shape coercion of the parsed data. *)
Definition coerce (parsedData : value) : value :=
  if truthy parsedData then
    ensure_items (ensure_charges discounts (ensure_charges taxes parsedData))
  else parsedData.

Definition parse_error : jsstring := lit "Could not parse structured data".

(** Lines 150-153: the body returned when the [try] block throws. *)
Definition degraded (generatedText : value) : value :=
  VObj [(lit "raw", generatedText); (lit "error", VStr parse_error)].

(** Lines 112-156 for a completion text: the body of the response. *)
Definition normalize (generatedText : jsstring) : value :=
  match JSON.parse (cleanedText generatedText) with
  | Some parsedData => coerce parsedData
  | None => degraded (VStr generatedText)
  end.

(** The same lines for whatever [generatedText] holds: on a value that is
    not a string, [generatedText.replace] is not a function and the
    [catch] block answers. *)
Definition normalize_value (generatedText : value) : value :=
  match generatedText with
  | VStr s => normalize s
  | _ => degraded generatedText
  end.

(** What [fetch] resolves to: [response.ok], [response.status], and what
    [response.text()] and [response.json()] resolve to ([None]: they
    reject). *)
Record response := {
  ok : bool;
  status : Z;
  text : option jsstring;
  json : option value
}.

(** The handler as a tree: it answers, or calls the completion service
    with a prompt and goes on with what [fetch] gives ([None]: it
    rejects). *)
Inductive handler :=
| Respond (status : Z) (body : value)
| Fetch (prompt : jsstring) (k : option response -> handler).

Definition error_body (message : string) : value :=
  VObj [(lit "error", VStr (lit message))].

(** Line 159: the outer [catch]. *)
Definition server_error : handler :=
  Respond 500 (error_body "Failed to process request").

(** Line 8 *)
Definition bad_request : handler :=
  Respond 400 (error_body "No text provided").

(** [o?.k]: [undefined] when [o] is [undefined] or [null]. *)
Definition get_opt (o : option value) (k : jsstring) : option value :=
  match o with
  | None | Some VNull => None
  | Some v => get v k
  end.

(** Line 109:
    [data.candidates?.[0]?.content?.parts?.[0]?.text], or the empty string
    when that is falsy, for a [data] that is not [null]. *)
Definition generatedText (data : value) : value :=
  let t := get_opt (get_opt (get_opt (get_opt (get_opt
             (get data (lit "candidates")) (lit "0")) (lit "content"))
             (lit "parts")) (lit "0")) (lit "text") in
  match t with
  | Some v => if truthy v then v else VStr []
  | None => VStr []
  end.

(** [NextResponse.json(body, { status })]: building the response throws
    when the status is outside 200-599, or is one of the statuses that
    allow no body, and the outer [catch] answers. *)
Definition json_response (status : Z) (body : value) : handler :=
  if (200 <=? status) && (status <=? 599)
     && negb ((status =? 204) || (status =? 205) || (status =? 304))
  then Respond status body
  else server_error.

(** Lines 100-156 *)
Definition after_fetch (r : option response) : handler :=
  match r with
  | None => server_error
  | Some response =>
      if negb (ok response) then
        match text response with
        | Some _ => json_response (status response) (error_body "Failed to analyze receipt")
        | None => server_error
        end
      else
        match json response with
        | None | Some VNull => server_error
        | Some data => Respond 200 (normalize_value (generatedText data))
        end
  end.

(** [POST], for what [request.json()] resolves to ([None]: it rejects). *)
Definition POST (request_json : option value) : handler :=
  match request_json with
  | None | Some VNull => server_error
  | Some body =>
      match get body (lit "text") with
      | None => bad_request
      | Some t =>
          if negb (truthy t) then bad_request
          else
            match t with
            | VStr s =>
                if Str.eqb (trim s) [] then bad_request
                else Fetch (prompt s) after_fetch
            | _ => server_error
            end
      end
  end.

(** The answer of the handler against a completion service, and the
    prompts sent to the service on the way. *)
Fixpoint serve (service : jsstring -> option response) (h : handler)
  : list jsstring * (Z * value) :=
  match h with
  | Respond st body => ([], (st, body))
  | Fetch p k =>
      let (calls, answer) := serve service (k (service p)) in
      (p :: calls, answer)
  end.

End Route.

(* ================================================================= *)
(** ** The display helpers: [src/components/receipt-scanner.tsx] *)

Module Scanner.

(** [typeof a === "number" ? a.toFixed(2) : a] inside a template. *)
Definition amount_text (a : value) : completion jsstring :=
  match a with
  | VNum n => Return (toFixed2 n)
  | _ => to_string a
  end.

(** Lines 47-52: the callback of [value.map]. *)
Definition format_item (item : value) : completion jsstring :=
  match typeof item with
  | Tobject =>
      match item with
      | VNull => Throw TypeError
      | _ =>
          match get item (lit "type") with
          | Some ty =>
              if truthy ty then
                match get item (lit "amount") with
                | Some am =>
                    t <- to_string ty ;;
                    a <- amount_text am ;;
                    Return (t ++ lit ": " ++ a)
                | None => Return (JSON.stringify item)
                end
              else Return (JSON.stringify item)
          | None => Return (JSON.stringify item)
          end
      end
  | _ => Return (JSON.stringify item)
  end.

(** Lines 39-83 *)
Definition formatValue (value : option value) : completion jsstring :=
  match value with
  | None | Some VNull => Return (lit "-")
  | Some (VArr l) =>
      parts <- map_m format_item l ;;
      Return (join (lit ", ") parts)
  | Some (VObj ps) =>
      match lookup (lit "amount") ps with
      | Some am =>
          formattedAmount <- amount_text am ;;
          match lookup (lit "type") ps with
          | Some ty =>
              if truthy ty then
                match ty with
                | VStr s =>
                    if Str.eqb s (lit "USD") then Return (lit "$" ++ formattedAmount)
                    else Return (formattedAmount ++ lit " " ++ s)
                | _ =>
                    t <- to_string ty ;;
                    Return (formattedAmount ++ lit " " ++ t)
                end
              else Return formattedAmount
          | None => Return formattedAmount
          end
      | None => Return (JSON.stringify (VObj ps))
      end
  | Some (VNum n) => Return (toFixed2 n)
  | Some v => to_string v
  end.

(** [Number.parseFloat(a) || 0] *)
Definition parsed_or_zero (a : option value) : completion number :=
  s <- to_string_opt a ;;
  let x := JSON.parseFloat s in
  Return (if Num.to_boolean x then x else Num.zero).

(** [typeof a === "number" ? a : Number.parseFloat(a) || 0] *)
Definition amount_number (a : option value) : completion number :=
  match a with
  | Some (VNum n) => Return n
  | _ => parsed_or_zero a
  end.

(** Lines 90-93: the callback of [discounts.reduce]. *)
Definition add_discount (total : number) (discount : value) : completion number :=
  match discount with
  | VNull => Throw TypeError
  | _ =>
      amount <- amount_number (get discount (lit "amount")) ;;
      Return (Num.add total amount)
  end.

(** Lines 86-105 *)
Definition calculateTotalDiscounts (discounts : option value) : completion number :=
  match discounts with
  | None => Return Num.zero
  | Some d =>
      if negb (truthy d) then Return Num.zero
      else
        match d with
        | VArr l => reduce_m add_discount l Num.zero
        | VObj ps =>
            match lookup (lit "amount") ps with
            | Some a => amount_number (Some a)
            | None => Return Num.zero
            end
        | VNum n => Return n
        | _ => Return Num.zero
        end
  end.

End Scanner.

(* ================================================================= *)
(** ** The notions of the statements *)

(** The shapes, predicates and example data the statements below are
    written with. *)
Module Spec.

(** The canonical shape of [taxes] and [discounts] as the code produces
    it: an array stays, an object is wrapped, any other truthy value gives
    the empty array, and a falsy value ([null], [false], [0], the empty
    string) stays. *)
Definition charge_shape (x : value) : value :=
  match x with
  | VArr _ => x
  | VObj _ => VArr [x]
  | _ => if truthy x then VArr [] else x
  end.

(** The canonical shape of [items] as the code produces it. *)
Definition items_shape (x : value) : value :=
  match x with
  | VArr _ => x
  | _ => if truthy x then VArr [x] else x
  end.

(** The shape the specification gives for [taxes] and [discounts]: an
    array stays, an object is wrapped, anything else gives the empty
    array. *)
Definition charge_shape_spec (x : value) : value :=
  match x with
  | VArr _ => x
  | VObj _ => VArr [x]
  | _ => VArr []
  end.

Definition has (v : value) (k : jsstring) : bool :=
  match get v k with Some _ => true | None => false end.

Definition structured_fields : list jsstring :=
  [lit "merchant"; lit "date"; lit "total"; lit "items"; lit "paymentMethod";
   lit "taxes"; lit "discounts"].

(** A record with [raw] and [error] and no structured field. *)
Definition only_degraded (v : value) : bool :=
  has v (lit "raw") && has v (lit "error")
  && forallb (fun k => negb (has v k)) structured_fields.

(** A record without [raw] and [error] whose fields are all structured
    fields. *)
Definition only_structured (v : value) : bool :=
  negb (has v (lit "raw")) && negb (has v (lit "error"))
  && match v with
     | VObj ps => forallb (fun kv => existsb (Str.eqb (fst kv)) structured_fields) ps
     | _ => false
     end.

Definition never_partially_degraded (v : value) : bool :=
  only_degraded v || only_structured v.

(** All three of [taxes], [discounts] and [items] are arrays when present. *)
Definition canonical (v : value) : bool :=
  forallb (fun k => match get v k with Some x => isArray x | None => true end)
    [Route.taxes; Route.discounts; Route.items].

(** A key that is neither an array index nor [length]: on arrays and
    strings such a key reads as [undefined]. *)
Definition named (k : jsstring) : Prop :=
  array_index k = None /\ Str.eqb k (lit "length") = false.

(** A guarded assignment [if (v.k && !Array.isArray(v.k)) v.k = f(v.k)]:
    both coercions are of this form. *)
Definition reshape (k : jsstring) (f : value -> value) (v : value) : value :=
  match get v k with
  | Some x => if truthy x && negb (isArray x) then set v k (f x) else v
  | None => v
  end.


(** A completion text in a fenced code block, with white space around
    the fences. *)
Definition fenced (ws1 ws2 ws3 ws4 t : jsstring) : jsstring :=
  ws1 ++ Route.fence_json ++ ws2 ++ t ++ ws3 ++ Route.fence ++ ws4.

(** The amount of one entry of the array, as the callback of [reduce]
    reads it. *)
Definition entry_amount (discount : value) : completion number :=
  match discount with
  | VNull => Throw TypeError
  | _ => Scanner.amount_number (get discount (lit "amount"))
  end.

(** An entry with the amount [x]. *)
Definition charge (x : number) : value := VObj [(lit "amount", VNum x)].

(** The numbers of the literals [0.1], [0.2] and [0.3]. *)
Definition n01 : number := Num.of_decimal false 1 (-1).
Definition n02 : number := Num.of_decimal false 2 (-1).
Definition n03 : number := Num.of_decimal false 3 (-1).


(** The worked example of the prompt as a completion text, the body with
    which the completion service delivers a completion text, and a service
    that always delivers the same one. *)
Definition example_completion : jsstring :=
  json_text "{ 'merchant': 'Store Name', 'date': '2023-04-15', 'total': 42.99,
  'items': [ { 'name': 'Product Name', 'price': 12.99, 'quantity': 2 } ],
  'paymentMethod': 'Credit Card',
  'taxes': [ { 'type': 'Sales Tax', 'amount': 3.45 } ],
  'discounts': [ { 'type': 'Member Discount', 'amount': 5.00 } ] }".

Definition completion_body (t : jsstring) : value :=
  VObj [(lit "candidates",
         VArr [VObj [(lit "content",
                      VObj [(lit "parts", VArr [VObj [(lit "text", VStr t)]])])]])].

Definition stub (t : jsstring) (prompt : jsstring) : option Route.response :=
  Some {| Route.ok := true; Route.status := 200; Route.text := Some t;
          Route.json := Some (completion_body t) |}.

Definition example_receipt : jsstring :=
  join [10] [lit "STORE A"; lit "2023-04-15"; lit "Milk 2 $3.50";
             lit "Tax 8% $0.56"; lit "Total $4.06"].

(** An entry whose amount is the number of the integer [k]. *)
Definition whole_entry (e : value) (k : Z) : Prop :=
  e <> VNull /\ get e (lit "amount") = Some (VNum (Num.of_Z k)).

(** The sum of a list of integers, and of their absolute values. *)
Definition total (ks : list Z) : Z := fold_right Z.add 0 ks.
Definition magnitude (ks : list Z) : Z := fold_right (fun k acc => Z.abs k + acc) 0 ks.

End Spec.

(** *** [sumCharges] as the specification words it *)

Module Reference.







End Reference.

(** *** What a rendered value looks like *)

Module Display.





(** Does [p] occur in [s]? *)
Fixpoint occurs (p s : jsstring) : bool :=
  starts_with p s || match s with [] => false | _ :: r => occurs p r end.

End Display.

(* ================================================================= *)
(** ** The component: [src/components/receipt-scanner.tsx], lines 107-233 *)

(** The handlers of the component as functions on its state.  What the
    outside world delivers (the file chosen, the text the OCR engine
    recognizes, the answer of the endpoint) is an argument; [None] stands
    for a promise that rejects.  The progress events of the OCR engine
    (lines 125-130) and the rendering (lines 235-507) are left out. *)
Module Client.

(** Lines 108-114; [null] is [None]. *)
Record state := {
  image : option jsstring;
  text : jsstring;
  progress : Z;
  isProcessing : bool;
  isAnalyzing : bool;
  error : option value;
  structuredData : option value
}.

Definition initial : state :=
  {| image := None; text := []; progress := 0; isProcessing := false;
     isAnalyzing := false; error := None; structuredData := None |}.

(** What [fetch("/api/analyze-receipt", ...)] resolves to: the status and
    what [response.json()] resolves to. *)
Definition answer : Type := option (Z * option value).

(** [response.ok] *)
Definition response_ok (status : Z) : bool := (200 <=? status) && (status <=? 299).

(** Line 191 *)
Definition analysis_failed : value :=
  VStr (lit "Failed to analyze receipt. Please try again.").

(** Lines 166-167 *)
Definition analyze_begin (s : state) : state :=
  {| image := image s; text := text s; progress := progress s;
     isProcessing := isProcessing s; isAnalyzing := true; error := None;
     structuredData := structuredData s |}.

(** What lines 169-191 end with: [setError(e)] or
    [setStructuredData(data)]. *)
Inductive outcome :=
| Failed (e : value)
| Structured (data : value).

(** Lines 169-191.  A status outside 200-299 throws (line 178), a body
    that is not JSON rejects, and reading [error] of [null] throws: the
    [catch] block answers all three. *)
Definition analysis_outcome (a : answer) : outcome :=
  match a with
  | None => Failed analysis_failed
  | Some (status, body) =>
      if response_ok status then
        match body with
        | None | Some VNull => Failed analysis_failed
        | Some data =>
            match get data (lit "error") with
            | Some e => if truthy e then Failed e else Structured data
            | None => Structured data
            end
        end
      else Failed analysis_failed
  end.

(** Lines 169-194 *)
Definition analyze_end (s : state) (a : answer) : state :=
  match analysis_outcome a with
  | Failed e =>
      {| image := image s; text := text s; progress := progress s;
         isProcessing := isProcessing s; isAnalyzing := false; error := Some e;
         structuredData := structuredData s |}
  | Structured data =>
      {| image := image s; text := text s; progress := progress s;
         isProcessing := isProcessing s; isAnalyzing := false; error := error s;
         structuredData := Some data |}
  end.

(** Lines 164-195 *)
Definition analyzeReceiptText (s : state) (a : answer) : state :=
  analyze_end (analyze_begin s) a.

(** Line 174: the body of the request. *)
Definition request_body (textToAnalyze : jsstring) : jsstring :=
  JSON.stringify (VObj [(lit "text", VStr textToAnalyze)]).

(** Lines 229-233: the text that is sent for analysis, if any. *)
Definition handleManualAnalysis (s : state) : option jsstring :=
  match trim (text s) with
  | [] => None
  | _ :: _ => Some (text s)
  end.

(** The file chosen: [file.type] and what the [FileReader] loads
    ([None]: it never loads). *)
Record file := {
  type : jsstring;
  dataURL : option jsstring
}.

(** Line 208 *)
Definition validTypes : list jsstring := [lit "image/jpeg"; lit "image/png"].

(** Line 210 *)
Definition invalid_file : value :=
  VStr (lit "Please upload a valid image file (JPG or PNG)").

(** Lines 197-223: the state, and whether [processImage] is called. *)
Definition handleFileChange (s : state) (f : option file) : state * bool :=
  match f with
  | None => (s, false)
  | Some f =>
      if existsb (Str.eqb (type f)) validTypes then
        ({| image := match dataURL f with Some u => Some u | None => image s end;
            text := []; progress := 0; isProcessing := isProcessing s;
            isAnalyzing := isAnalyzing s; error := None; structuredData := None |},
         true)
      else
        ({| image := image s; text := []; progress := 0;
            isProcessing := isProcessing s; isAnalyzing := isAnalyzing s;
            error := Some invalid_file; structuredData := None |},
         false)
  end.

(** Lines 152 and 159 *)
Definition ocr_failed : value := VStr (lit "Error processing image. Please try again.").

(** Lines 119-121 *)
Definition processImage_begin (s : state) : state :=
  {| image := image s; text := text s; progress := 0; isProcessing := true;
     isAnalyzing := isAnalyzing s; error := error s; structuredData := None |}.

(** Lines 139-156, for what [Tesseract.recognize] resolves to (the text
    of the result): the state, and the text that is sent for analysis, if
    any. *)
Definition processImage_end (s : state) (ocr : option jsstring)
  : state * option jsstring :=
  match ocr with
  | Some extractedText =>
      ({| image := image s; text := extractedText; progress := 100;
          isProcessing := false; isAnalyzing := isAnalyzing s; error := error s;
          structuredData := structuredData s |},
       match trim extractedText with
       | [] => None
       | _ :: _ => Some extractedText
       end)
  | None =>
      ({| image := image s; text := text s; progress := progress s;
          isProcessing := false; isAnalyzing := isAnalyzing s;
          error := Some ocr_failed; structuredData := structuredData s |},
       None)
  end.

(** An upload from the choice of the file to the end of the analysis:
    [handleFileChange], [processImage] and, for a text that is not blank,
    [analyzeReceiptText] against the endpoint. *)
Definition upload (s : state) (f : option file) (ocr : option jsstring)
  (endpoint : jsstring -> answer) : state :=
  match handleFileChange s f with
  | (s1, false) => s1
  | (s1, true) =>
      match processImage_end (processImage_begin s1) ocr with
      | (s2, None) => s2
      | (s2, Some t) => analyzeReceiptText s2 (endpoint t)
      end
  end.

(** A manual analysis (the button of line 481). *)
Definition reanalyze (s : state) (endpoint : jsstring -> answer) : state :=
  match handleManualAnalysis s with
  | Some t => analyzeReceiptText s (endpoint t)
  | None => s
  end.

End Client.

(* ================================================================= *)
(** ** The component against the endpoint *)

Module Wire.

(** What [request.json()] resolves to in the handler for the body the
    component sends (line 174 of the component, line 5 of the route). *)
Definition request (textToAnalyze : jsstring) : option value :=
  JSON.parse (Client.request_body textToAnalyze).

(** The answer of the handler as the component reads it:
    [NextResponse.json] writes the body with [JSON.stringify] and
    [response.json()] parses it. *)
Definition answer_of (r : Z * value) : Client.answer :=
  Some (fst r, JSON.parse (JSON.stringify (snd r))).

(** The endpoint, served by the handler against a completion service. *)
Definition endpoint (service : jsstring -> option Route.response)
  (textToAnalyze : jsstring) : Client.answer :=
  answer_of (snd (Route.serve service (Route.POST (request textToAnalyze)))).

End Wire.

(* ================================================================= *)
(** ** The page: [src/components/receipt-scanner.tsx], lines 235-507 *)

(** Of the page the model keeps the JavaScript inside the markup: which
    branch of a condition is taken, and the values of the expressions that
    are handed to React.  What React makes of these values is left out. *)
Module View.

(** Lines 391-401 and 454-463: the two cells of the row of an entry, as
    the values handed to React: the type of the entry, or the name of the
    section when it has none, and its amount, a number with two decimals.
    Reading [type] of [null] throws. *)
Definition row (name : string) (entry : value) : completion (value * option value) :=
  match entry with
  | VNull => Throw TypeError
  | _ =>
      Return (match get entry (lit "type") with
              | Some t => if truthy t then t else VStr (lit name)
              | None => VStr (lit name)
              end,
              match get entry (lit "amount") with
              | Some (VNum n) => Some (VStr (toFixed2 n))
              | a => a
              end)
  end.

(** What a section of charges shows: no table (its guard is falsy), the
    rows of a list and the text of the total row if there is one, or the
    single row of the fallback with the text of [formatValue]. *)
Inductive charges_view :=
| Absent
| Rows (rows : list (value * option value)) (total : option jsstring)
| Fallback (amount : jsstring).

(** Lines 431-475 *)
Definition taxes_section (taxes : option value) : completion charges_view :=
  match taxes with
  | None => Return Absent
  | Some v =>
      if truthy v then
        match v with
        | VArr l => rows <- map_m (row "Tax") l ;; Return (Rows rows None)
        | _ => t <- Scanner.formatValue (Some v) ;; Return (Fallback t)
        end
      else Return Absent
  end.

(** Lines 368-428; the total row is there for a list of two entries or
    more. *)
Definition discounts_section (discounts : option value) : completion charges_view :=
  match discounts with
  | None => Return Absent
  | Some v =>
      if truthy v then
        match v with
        | VArr l =>
            rows <- map_m (row "Discount") l ;;
            total <- (if 1 <? Z.of_nat (List.length l) then
                        n <- Scanner.calculateTotalDiscounts (Some v) ;;
                        Return (Some (lit "-" ++ toFixed2 n))
                      else Return None) ;;
            Return (Rows rows total)
        | _ => t <- Scanner.formatValue (Some v) ;; Return (Fallback t)
        end
      else Return Absent
  end.

End View.

(* ================================================================= *)
(** ** A session with the component *)

(** The events are handled one after the other: an event that arrives
    while the recognition or the analysis of an earlier one is still under
    way is not modelled. *)
Module Session.

(** Lines 280, 289 and 294: the results are on the page. *)
Definition results_shown (s : Client.state) : bool :=
  match Client.text s with [] => false | _ :: _ => true end
  && negb (Client.isAnalyzing s)
  && match Client.structuredData s with Some d => truthy d | None => false end.

(** Lines 280, 289, 294 and 481: the button that starts an analysis is on
    the page. *)
Definition button_shown (s : Client.state) : bool :=
  match Client.text s with [] => false | _ :: _ => true end
  && negb (Client.isAnalyzing s)
  && negb match Client.structuredData s with Some d => truthy d | None => false end.

(** Line 481: the button is disabled. *)
Definition button_disabled (s : Client.state) : bool :=
  match Client.text s with [] => true | _ :: _ => false end || Client.isAnalyzing s.

(** What the user does, with what the outside world answers: a file is
    chosen, or the button of line 481 is clicked. *)
Inductive event :=
| Choose (f : option Client.file) (ocr : option jsstring) (a : Client.answer)
| Click (a : Client.answer).

(** An event handled to its end.  A click needs an enabled button on the
    page. *)
Definition handle (s : Client.state) (e : event) : Client.state :=
  match e with
  | Choose f ocr a => Client.upload s f ocr (fun _ => a)
  | Click a =>
      if button_shown s && negb (button_disabled s)
      then Client.reanalyze s (fun _ => a)
      else s
  end.

(** A session: the events are handled one after the other, from the
    initial state. *)
Definition session (es : list event) : Client.state :=
  fold_left handle es Client.initial.

End Session.

(* ================================================================= *)
(** ** More notions of the statements *)

Module Notions.

(** A string of 16-bit code units. *)
Definition code_units (s : jsstring) : bool :=
  forallb (fun c => (0 <=? c) && (c <? 65536)) s.

(** The keys of an object, in property order. *)
Definition keys (v : value) : list jsstring :=
  match v with
  | VObj ps => map fst ps
  | _ => []
  end.

(** No object inside the value has a property named [toString]. *)
Fixpoint no_toString (v : value) : bool :=
  match v with
  | VArr l => forallb no_toString l
  | VObj ps =>
      match lookup (lit "toString") ps with Some _ => false | None => true end
      && forallb (fun kv => no_toString (snd kv)) ps
  | _ => true
  end.

Definition is_null (v : value) : bool :=
  match v with VNull => true | _ => false end.

(** A [text] that line 7 of the route takes as not provided: none, a
    string of white space only, or another falsy value. *)
Definition missing_text (t : option value) : bool :=
  match t with
  | None => true
  | Some (VStr s) => all_ws s
  | Some t => negb (truthy t)
  end.

(** The parts of the first candidate of an answer of the completion
    service. *)
Definition first_parts (data : value) : option value :=
  Route.get_opt (Route.get_opt (Route.get_opt (get data (lit "candidates")) (lit "0"))
                   (lit "content")) (lit "parts").

(** [t], or the empty string when [t] is falsy or undefined. *)
Definition or_empty (t : option value) : value :=
  match t with
  | Some v => if truthy v then v else VStr []
  | None => VStr []
  end.

(** A token before the tokens of the rest of a text. *)
Definition then_token (t : JSON.token) (r : option (list JSON.token))
  : option (list JSON.token) :=
  match r with Some ts => Some (t :: ts) | None => None end.

(** The state after an analysis that ended with [setError(e)]: the
    message is set, the results of before are kept. *)
Definition failed (s : Client.state) (e : value) : Client.state :=
  {| Client.image := Client.image s; Client.text := Client.text s;
     Client.progress := Client.progress s;
     Client.isProcessing := Client.isProcessing s; Client.isAnalyzing := false;
     Client.error := Some e; Client.structuredData := Client.structuredData s |}.

(** The state after an analysis that ended with
    [setStructuredData(data)]. *)
Definition analyzed (s : Client.state) (data : value) : Client.state :=
  {| Client.image := Client.image s; Client.text := Client.text s;
     Client.progress := Client.progress s;
     Client.isProcessing := Client.isProcessing s; Client.isAnalyzing := false;
     Client.error := None; Client.structuredData := Some data |}.

(** A state of the component with the text [t] in the text area. *)
Definition with_text (t : jsstring) : Client.state :=
  {| Client.image := None; Client.text := t; Client.progress := 100;
     Client.isProcessing := false; Client.isAnalyzing := false;
     Client.error := None; Client.structuredData := None |}.

(** The state between two events of a session: nothing is under way, an
    error in the state is a truthy value, and truthy results come without
    an error and with a text that is not blank. *)
Definition settled (s : Client.state) : Prop :=
  Client.isProcessing s = false /\ Client.isAnalyzing s = false
  /\ (forall e, Client.error s = Some e -> truthy e = true)
  /\ (forall d, Client.structuredData s = Some d -> truthy d = true ->
        Client.error s = None /\ all_ws (Client.text s) = false).

(** A completion service that answers with a failure status. *)
Definition failing (status : Z) (prompt : jsstring) : option Route.response :=
  Some {| Route.ok := false; Route.status := status;
          Route.text := Some (lit "quota exceeded"); Route.json := None |}.

End Notions.

(* ================================================================= *)
(** * Properties *)

Import Route Scanner Spec Display Notions.

(** ** The built-ins on examples *)

Example number_toString :
  map (fun x => Num.toString (Num.of_decimal (fst (fst x)) (snd (fst x)) (snd x)))
    [(false, 345, -2); (false, 1, -1); (true, 5, -1); (false, 1, 21);
     (false, 1, -7); (false, 123456, -3); (false, 5, -324); (false, 1, 400);
     (true, 0, 0)]
  = map lit ["3.45"; "0.1"; "-0.5"; "1e+21"; "1e-7"; "123.456"; "5e-324";
             "Infinity"; "0"]%string.
Proof. vm_compute. reflexivity. Qed.

Example number_toFixed2 :
  map (fun x => Num.toFixed2 (Num.of_decimal (fst (fst x)) (snd (fst x)) (snd x)))
    [(false, 345, -2); (false, 5, 0); (false, 1005, -3); (false, 8345, -3);
     (true, 1, -3); (false, 999999, -4); (false, 1, 21); (false, 1, 400)]
  = map lit ["3.45"; "5.00"; "1.00"; "8.35"; "-0.00"; "100.00"; "1e+21";
             "Infinity"]%string.
Proof. vm_compute. reflexivity. Qed.

Example parseFloat_examples :
  map (fun s => Num.toString (JSON.parseFloat (lit s)))
    ["3.45"; " 12abc"; "abc"; "-.5e-3x"; "5."; "."; "1e"; "-0"; "$5"]%string
  = map lit ["3.45"; "12"; "NaN"; "-0.0005"; "5"; "NaN"; "1"; "0"; "NaN"]%string.
Proof. vm_compute. reflexivity. Qed.

Example parse_accepts :
  JSON.parse (json_text " {'b': [1, 2.5e3, -0.5, true, null, 'x\ny'], 'a': {}, 'b': 7} ")
  = Some (VObj [(lit "b", VNum (Num.of_Z 7)); (lit "a", VObj [])])
  /\ JSON.parse (json_text "[1, 'a', [], {'k': false}]")
     = Some (VArr [VNum (Num.of_Z 1); VStr (lit "a"); VArr [];
                   VObj [(lit "k", VBool false)]]).
Proof. split; vm_compute; reflexivity. Qed.

Example parse_rejects :
  map (fun s => JSON.parse (json_text s))
    ["Sorry"; "01"; "1."; "[1,]"; "{'a':1,}"; "{'a'}"; "[1 2]"; "'abc";
     "nul"; "{}{}"; "["; "+1"; ".5"; "{a:1}"]%string
  = repeat None 14.
Proof. vm_compute. reflexivity. Qed.

Example stringify_example :
  option_map JSON.stringify (JSON.parse example_completion)
  = Some (json_text "{'merchant':'Store Name','date':'2023-04-15','total':42.99,'items':[{'name':'Product Name','price':12.99,'quantity':2}],'paymentMethod':'Credit Card','taxes':[{'type':'Sales Tax','amount':3.45}],'discounts':[{'type':'Member Discount','amount':5}]}").
Proof. vm_compute. reflexivity. Qed.

(** The endpoint against a service that delivers the worked example of the
    prompt: one prompt is sent, the answer has status 200, its first item
    is the one of the example and its total is displayed as [42.99]. *)
Example end_to_end :
  exists record,
    serve (stub example_completion) (POST (Some (VObj [(lit "text", VStr example_receipt)])))
    = ([prompt example_receipt], (200, record))
    /\ get_opt (get record (lit "items")) (lit "0")
       = Some (VObj [(lit "name", VStr (lit "Product Name"));
                     (lit "price", VNum (Num.of_decimal false 1299 (-2)));
                     (lit "quantity", VNum (Num.of_Z 2))])
    /\ formatValue (get record (lit "total")) = Return (lit "42.99")
    /\ calculateTotalDiscounts (get record (lit "discounts"))
       = Return (Num.of_Z 5).
Proof.
  eexists; split; [vm_compute; reflexivity|].
  repeat split; vm_compute; reflexivity.
Qed.

(** ** Strings and objects *)

Lemma eqb_refl (s : jsstring) : Str.eqb s s = true.
Proof.
  induction s as [|c s IH]; simpl; [reflexivity|].
  now rewrite Z.eqb_refl, IH.
Qed.

Lemma eqb_eq (s t : jsstring) : Str.eqb s t = true <-> s = t.
Proof.
  split; [|intros ->; apply eqb_refl].
  revert t; induction s as [|c s IH]; intros [|d t]; simpl; try discriminate; auto.
  intros H; apply andb_prop in H as [H1 H2].
  apply Z.eqb_eq in H1; subst; f_equal; auto.
Qed.

Lemma eqb_neq (s t : jsstring) : Str.eqb s t = false <-> s <> t.
Proof.
  split.
  - intros H E; apply eqb_eq in E; congruence.
  - intros H; destruct (Str.eqb s t) eqn:E; [apply eqb_eq in E; contradiction|reflexivity].
Qed.

Lemma get_named (v : value) (k : jsstring) (x : value) :
  named k -> get v k = Some x -> exists ps, v = VObj ps /\ lookup k ps = Some x.
Proof.
  intros [Hi Hl] H; destruct v; simpl in H; try discriminate.
  - rewrite Hi, Hl in H; discriminate.
  - rewrite Hi, Hl in H; discriminate.
  - eauto.
Qed.

Lemma lookup_update_same k x ps v :
  lookup k ps = Some v -> lookup k (update k x ps) = Some x.
Proof.
  induction ps as [|[k' v'] ps IH]; simpl; [discriminate|].
  destruct (Str.eqb k k') eqn:E; simpl; rewrite E; auto.
Qed.

Lemma lookup_update_other k k' x ps :
  k' <> k -> lookup k' (update k x ps) = lookup k' ps.
Proof.
  intros Hn; induction ps as [|[k0 v0] ps IH]; simpl; [reflexivity|].
  destruct (Str.eqb k k0) eqn:E; simpl.
  - apply eqb_eq in E; subst k0.
    apply eqb_neq in Hn; now rewrite Hn.
  - now rewrite IH.
Qed.

Lemma update_same k x ps : lookup k ps = Some x -> update k x ps = ps.
Proof.
  induction ps as [|[k' v'] ps IH]; simpl; [reflexivity|].
  destruct (Str.eqb k k') eqn:E.
  - intros [= ->]; reflexivity.
  - intros H; now rewrite IH.
Qed.

Lemma define_present k x ps v :
  lookup k ps = Some v -> define k x ps = update k x ps.
Proof. unfold define; intros ->; reflexivity. Qed.

(** Assigning to a property that exists: the property reads as assigned
    and the others read as before. *)
Lemma get_set_same v k x y :
  named k -> get v k = Some y -> get (set v k x) k = Some x.
Proof.
  intros Hk H; destruct (get_named _ _ _ Hk H) as (ps & -> & Hl); simpl.
  rewrite (define_present _ _ _ _ Hl); eapply lookup_update_same; eauto.
Qed.

Lemma get_set_other v k k' x y :
  named k -> get v k = Some y -> k' <> k -> get (set v k x) k' = get v k'.
Proof.
  intros Hk H Hn; destruct (get_named _ _ _ Hk H) as (ps & -> & Hl); simpl.
  rewrite (define_present _ _ _ _ Hl); now apply lookup_update_other.
Qed.

Lemma truthy_set v k x y : get v k = Some y -> named k -> truthy (set v k x) = truthy v.
Proof.
  intros H Hk; destruct (get_named _ _ _ Hk H) as (ps & -> & Hl); reflexivity.
Qed.

Lemma named_taxes : named Route.taxes.
Proof. split; reflexivity. Qed.

Lemma named_discounts : named Route.discounts.
Proof. split; reflexivity. Qed.

Lemma named_items : named Route.items.
Proof. split; reflexivity. Qed.

(** ** The shape coercion *)

(** What the two guards of lines 125-126 decide. *)
Lemma ensure_charges_unfold field v :
  ensure_charges field v =
  match get v field with
  | Some x => if truthy x && negb (isArray x) then set v field (charge_shape x) else v
  | None => v
  end.
Proof.
  unfold ensure_charges; destruct (get v field) as [x|]; [|reflexivity].
  destruct x as [| b | n | s | l | ps]; simpl; try reflexivity.
  - destruct b; reflexivity.
  - destruct (Num.to_boolean n); reflexivity.
  - destruct s; reflexivity.
Qed.

Lemma charge_shape_fixed x :
  truthy x && negb (isArray x) = false -> charge_shape x = x.
Proof.
  destruct x as [| b | n | s | l | ps]; simpl; try reflexivity; try discriminate.
  - destruct b; [discriminate|reflexivity].
  - destruct (Num.to_boolean n); [discriminate|reflexivity].
  - destruct s; [reflexivity|discriminate].
Qed.

Lemma charge_shape_stable x :
  truthy (charge_shape x) && negb (isArray (charge_shape x)) = false.
Proof.
  destruct x as [| b | n | s | l | ps]; simpl; try reflexivity.
  - destruct b; reflexivity.
  - destruct (Num.to_boolean n) eqn:E; simpl; [reflexivity|now rewrite E].
  - destruct s; reflexivity.
Qed.

Lemma ensure_items_unfold v :
  ensure_items v =
  match get v items with
  | Some x => if truthy x && negb (isArray x) then set v items (items_shape x) else v
  | None => v
  end.
Proof.
  unfold ensure_items; destruct (get v items) as [x|]; [|reflexivity].
  destruct x as [| b | n | s | l | ps]; simpl; try reflexivity.
  - destruct b; reflexivity.
  - destruct (Num.to_boolean n); reflexivity.
  - destruct s; reflexivity.
Qed.

Lemma items_shape_fixed x :
  truthy x && negb (isArray x) = false -> items_shape x = x.
Proof.
  destruct x as [| b | n | s | l | ps]; simpl; try reflexivity; try discriminate.
  - destruct b; [discriminate|reflexivity].
  - destruct (Num.to_boolean n); [discriminate|reflexivity].
  - destruct s; [reflexivity|discriminate].
Qed.

Lemma items_shape_stable x :
  truthy (items_shape x) && negb (isArray (items_shape x)) = false.
Proof.
  destruct x as [| b | n | s | l | ps]; simpl; try reflexivity.
  - destruct b; reflexivity.
  - destruct (Num.to_boolean n) eqn:E; simpl; [reflexivity|now rewrite E].
  - destruct s; reflexivity.
Qed.

Section Reshape.

Variables (k : jsstring) (f : value -> value).
Hypothesis Hk : named k.
Hypothesis f_fixed : forall x, truthy x && negb (isArray x) = false -> f x = x.

Lemma get_reshape_same v : get (reshape k f v) k = option_map f (get v k).
Proof.
  unfold reshape; destruct (get v k) as [x|] eqn:G; simpl; [|assumption].
  destruct (truthy x && negb (isArray x)) eqn:E.
  - eapply get_set_same; eauto.
  - rewrite G, f_fixed; auto.
Qed.

Lemma get_reshape_other v k' : k' <> k -> get (reshape k f v) k' = get v k'.
Proof.
  intros Hn; unfold reshape; destruct (get v k) as [x|] eqn:G; [|reflexivity].
  destruct (truthy x && negb (isArray x)); [|reflexivity].
  eapply get_set_other; eauto.
Qed.

Lemma has_reshape v k' : has (reshape k f v) k' = has v k'.
Proof.
  unfold has; destruct (eqb k' k) eqn:E.
  - apply eqb_eq in E; subst k'; rewrite get_reshape_same.
    destruct (get v k); reflexivity.
  - apply eqb_neq in E; now rewrite get_reshape_other.
Qed.

Lemma truthy_reshape v : truthy (reshape k f v) = truthy v.
Proof.
  unfold reshape; destruct (get v k) as [x|] eqn:G; [|reflexivity].
  destruct (truthy x && negb (isArray x)); [|reflexivity].
  eapply truthy_set; eauto.
Qed.

(** Where the field already has its shape, nothing is assigned. *)
Lemma reshape_fixed v :
  match get v k with
  | Some x => truthy x && negb (isArray x) = false
  | None => True
  end -> reshape k f v = v.
Proof.
  unfold reshape; destruct (get v k) as [x|]; [|reflexivity].
  now intros ->.
Qed.

End Reshape.

Lemma coerce_unfold v :
  coerce v =
  if truthy v then
    reshape items items_shape
      (reshape discounts charge_shape (reshape taxes charge_shape v))
  else v.
Proof.
  unfold coerce; destruct (truthy v); [|reflexivity].
  now rewrite ensure_items_unfold, !ensure_charges_unfold.
Qed.

Lemma get_falsy v k : named k -> truthy v = false -> get v k = None.
Proof.
  intros Hk Hv; destruct (get v k) as [x|] eqn:G; [|reflexivity].
  destruct (get_named _ _ _ Hk G) as (ps & -> & _); discriminate.
Qed.

Lemma taxes_discounts : taxes <> discounts.
Proof. discriminate. Qed.

Lemma taxes_items : taxes <> items.
Proof. discriminate. Qed.

Lemma discounts_items : discounts <> items.
Proof. discriminate. Qed.

Create HintDb shape.

#[local] Hint Resolve named_taxes named_discounts named_items
  charge_shape_fixed charge_shape_stable items_shape_fixed items_shape_stable
  taxes_discounts taxes_items discounts_items : shape.

Lemma get_coerce_taxes v :
  get (coerce v) taxes = option_map charge_shape (get v taxes).
Proof.
  rewrite coerce_unfold; destruct (truthy v) eqn:T.
  - rewrite get_reshape_other, get_reshape_other, get_reshape_same;
      auto with shape.
  - rewrite (get_falsy v taxes); auto with shape.
Qed.

Lemma get_coerce_discounts v :
  get (coerce v) discounts = option_map charge_shape (get v discounts).
Proof.
  rewrite coerce_unfold; destruct (truthy v) eqn:T.
  - rewrite get_reshape_other, get_reshape_same, get_reshape_other;
      auto with shape.
  - rewrite (get_falsy v discounts); auto with shape.
Qed.

Lemma get_coerce_items v :
  get (coerce v) items = option_map items_shape (get v items).
Proof.
  rewrite coerce_unfold; destruct (truthy v) eqn:T.
  - rewrite get_reshape_same, get_reshape_other, get_reshape_other;
      auto with shape.
  - rewrite (get_falsy v items); auto with shape.
Qed.

Lemma get_coerce_other v k :
  k <> taxes -> k <> discounts -> k <> items -> get (coerce v) k = get v k.
Proof.
  intros H1 H2 H3; rewrite coerce_unfold; destruct (truthy v); [|reflexivity].
  rewrite !get_reshape_other; auto with shape.
Qed.

Lemma has_coerce v k : has (coerce v) k = has v k.
Proof.
  rewrite coerce_unfold; destruct (truthy v); [|reflexivity].
  rewrite !has_reshape; auto with shape.
Qed.


(** C1, as stated, fails: a [taxes] that is the number 0 is present and
    is neither an object nor an array, the specification's shape for it is
    the empty array, and the normalizer leaves the 0 in place. *)
Lemma taxes_zero_is_kept :
  JSON.parse (cleanedText (json_text "{'taxes': 0}"))
  = Some (VObj [(taxes, VNum (S754_zero false))])
  /\ charge_shape_spec (VNum (S754_zero false)) = VArr []
  /\ get (normalize (json_text "{'taxes': 0}")) taxes = Some (VNum (S754_zero false))
  /\ get (normalize (json_text "{'taxes': 0}")) taxes
     <> Some (charge_shape_spec (VNum (S754_zero false))).
Proof.
  repeat split; try (vm_compute; reflexivity).
  vm_compute; discriminate.
Qed.

(** C1 (amended): for every completion that parses, [taxes] and
    [discounts] of the record each hold the canonical shape of what was
    parsed: an array is left unchanged, an object is replaced by the
    one-element array containing it, any other truthy value (a non-zero
    number, a non-empty string, [true]) is replaced by the empty array, and
    a falsy value ([null], [false], 0, the empty string) is left unchanged;
    an absent field stays absent. *)
Theorem coerce_charges (generated : jsstring) (parsedData : value) :
  JSON.parse (cleanedText generated) = Some parsedData ->
  normalize generated = coerce parsedData
  /\ get (coerce parsedData) taxes = option_map charge_shape (get parsedData taxes)
  /\ get (coerce parsedData) discounts
     = option_map charge_shape (get parsedData discounts).
Proof.
  intros H; unfold normalize; rewrite H.
  split; [reflexivity|].
  split; [apply get_coerce_taxes | apply get_coerce_discounts].
Qed.

(** The round trip of the specification: a single tax object is wrapped. *)
Lemma coerce_charges_witness :
  get (normalize (json_text "{'taxes': {'type': 'Sales Tax', 'amount': 3.45}}")) taxes
  = Some (VArr [VObj [(lit "type", VStr (lit "Sales Tax"));
                      (lit "amount", VNum (Num.of_decimal false 345 (-2)))]]).
Proof.
  destruct (coerce_charges
              (json_text "{'taxes': {'type': 'Sales Tax', 'amount': 3.45}}")
              (VObj [(lit "taxes",
                      VObj [(lit "type", VStr (lit "Sales Tax"));
                            (lit "amount", VNum (Num.of_decimal false 345 (-2)))])]))
    as (N & T & _).
  - vm_compute; reflexivity.
  - rewrite N, T; reflexivity.
Defined.

(** C2: a completion text whose cleaned form is not JSON is answered with
    exactly the record of [raw], holding the completion text as it came,
    and [error]; the endpoint answers it with status 200. *)
Theorem normalize_not_json (generated : jsstring) :
  JSON.parse (cleanedText generated) = None ->
  normalize generated
  = VObj [(lit "raw", VStr generated);
          (lit "error", VStr (lit "Could not parse structured data"))]
  /\ forall r data,
       ok r = true -> json r = Some data -> data <> VNull ->
       generatedText data = VStr generated ->
       after_fetch (Some r)
       = Respond 200 (VObj [(lit "raw", VStr generated);
                            (lit "error", VStr (lit "Could not parse structured data"))]).
Proof.
  intros H; assert (N : normalize generated = degraded (VStr generated)).
  { unfold normalize; now rewrite H. }
  split; [exact N|].
  intros r data Hok Hj Hd Hg; unfold after_fetch; rewrite Hok, Hj; simpl.
  destruct data; try congruence; rewrite Hg; simpl; now rewrite N.
Qed.

Lemma normalize_not_json_witness :
  normalize (lit "Sorry, I cannot help.")
  = VObj [(lit "raw", VStr (lit "Sorry, I cannot help."));
          (lit "error", VStr (lit "Could not parse structured data"))].
Proof.
  apply (normalize_not_json (lit "Sorry, I cannot help.")).
  vm_compute; reflexivity.
Defined.

(** C3, as stated, fails: the fields of the completion pass through, so a
    completion whose JSON has a [raw] field gives a record with [raw],
    without [error] and with a structured field. *)
Lemma raw_field_passes_through :
  normalize (json_text "{'raw': 'x', 'merchant': 'M'}")
  = VObj [(lit "raw", VStr (lit "x")); (lit "merchant", VStr (lit "M"))]
  /\ never_partially_degraded (normalize (json_text "{'raw': 'x', 'merchant': 'M'}"))
     = false.
Proof. split; vm_compute; reflexivity. Qed.

(** C3 (amended): for every completion text, either the cleaned text is not
    JSON and the record is exactly [raw] and [error], with no structured
    field, or it is JSON and the record is the coerced parse result, which
    has exactly the fields the parsed data has: the normalizer adds neither
    [raw] nor [error] nor any other field, and removes none. *)
Theorem normalize_outcomes (generated : jsstring) :
  (JSON.parse (cleanedText generated) = None
   /\ normalize generated = degraded (VStr generated)
   /\ only_degraded (normalize generated) = true)
  \/ (exists parsedData,
        JSON.parse (cleanedText generated) = Some parsedData
        /\ normalize generated = coerce parsedData
        /\ forall k, has (normalize generated) k = has parsedData k).
Proof.
  unfold normalize; destruct (JSON.parse (cleanedText generated)) as [pd|].
  - right; exists pd; repeat split; intros; apply has_coerce.
  - left; repeat split.
Qed.

(** C4, as stated, fails: a [taxes] that is the plain number 5 is accepted,
    and the record then holds the empty array: the 5 is gone, and the sum
    of the charges of the record is 0. *)
Lemma taxes_five_is_discarded :
  JSON.parse (cleanedText (json_text "{'taxes': 5}"))
  = Some (VObj [(taxes, VNum (Num.of_Z 5))])
  /\ get (normalize (json_text "{'taxes': 5}")) taxes = Some (VArr [])
  /\ get (normalize (json_text "{'taxes': 5}")) taxes <> Some (VNum (Num.of_Z 5))
  /\ Scanner.calculateTotalDiscounts (get (normalize (json_text "{'taxes': 5}")) taxes)
     = Return Num.zero.
Proof.
  repeat split; try (vm_compute; reflexivity).
  vm_compute; discriminate.
Qed.

(** C4 (amended): a parsed completion whose [taxes] (or [discounts]) is a
    plain number [n] is accepted, and the field of the record is the empty
    array when [n] is not zero and [n] itself when [n] is zero: the amount
    of a non-zero bare number is discarded. *)
Theorem bare_number_charges (generated : jsstring) (parsedData : value)
  (field : jsstring) (n : number) :
  JSON.parse (cleanedText generated) = Some parsedData ->
  field = taxes \/ field = discounts ->
  get parsedData field = Some (VNum n) ->
  get (normalize generated) field
  = Some (if Num.to_boolean n then VArr [] else VNum n).
Proof.
  intros Hp Hf Hg; unfold normalize; rewrite Hp.
  destruct Hf as [-> | ->];
    [rewrite get_coerce_taxes | rewrite get_coerce_discounts];
    rewrite Hg; reflexivity.
Qed.

Lemma bare_number_charges_witness :
  get (normalize (json_text "{'discounts': 5}")) discounts = Some (VArr []).
Proof.
  apply (bare_number_charges (json_text "{'discounts': 5}")
           (VObj [(discounts, VNum (Num.of_Z 5))]) discounts (Num.of_Z 5)).
  - vm_compute; reflexivity.
  - right; reflexivity.
  - reflexivity.
Defined.

Lemma canonical_fields v :
  canonical v = true ->
  forall k, k = taxes \/ k = discounts \/ k = items ->
  match get v k with
  | Some x => truthy x && negb (isArray x) = false
  | None => True
  end.
Proof.
  unfold canonical; simpl; intros H k Hk.
  apply andb_prop in H as [H1 H]; apply andb_prop in H as [H2 H].
  apply andb_prop in H as [H3 _].
  destruct Hk as [-> | [-> | ->]].
  - destruct (get v taxes); [rewrite H1; apply andb_false_r|exact I].
  - destruct (get v discounts); [rewrite H2; apply andb_false_r|exact I].
  - destruct (get v items); [rewrite H3; apply andb_false_r|exact I].
Qed.

Lemma coerce_fixed v :
  (forall k, k = taxes \/ k = discounts \/ k = items ->
     match get v k with
     | Some x => truthy x && negb (isArray x) = false
     | None => True
     end) -> coerce v = v.
Proof.
  intros H; rewrite coerce_unfold; destruct (truthy v); [|reflexivity].
  rewrite (reshape_fixed taxes charge_shape v) by (apply H; auto).
  rewrite (reshape_fixed discounts charge_shape v) by (apply H; auto).
  rewrite (reshape_fixed items items_shape v) by (apply H; auto).
  reflexivity.
Qed.

(** C10: the shape coercion is idempotent, and it leaves unchanged every
    value whose [taxes], [discounts] and [items] are arrays when present. *)
Theorem coerce_idempotent (x : value) :
  coerce (coerce x) = coerce x
  /\ (canonical x = true -> coerce x = x).
Proof.
  split.
  - apply coerce_fixed; intros k [-> | [-> | ->]].
    + rewrite get_coerce_taxes; destruct (get x taxes); simpl;
        [apply charge_shape_stable|exact I].
    + rewrite get_coerce_discounts; destruct (get x discounts); simpl;
        [apply charge_shape_stable|exact I].
    + rewrite get_coerce_items; destruct (get x items); simpl;
        [apply items_shape_stable|exact I].
  - intros H; apply coerce_fixed, canonical_fields, H.
Qed.

Lemma coerce_idempotent_witness :
  coerce (VObj [(taxes, VArr []); (items, VArr [VNull])])
  = VObj [(taxes, VArr []); (items, VArr [VNull])].
Proof.
  apply (proj2 (coerce_idempotent (VObj [(taxes, VArr []); (items, VArr [VNull])]))).
  reflexivity.
Defined.

(** ** White space and the request guard *)

Definition all_ws (s : jsstring) : bool := forallb is_white_space s.

Lemma trimStart_ws a y : all_ws a = true -> trimStart (a ++ y) = trimStart y.
Proof.
  induction a as [|c a IH]; simpl; [reflexivity|].
  intros H; apply andb_prop in H as [H1 H2]; rewrite H1; auto.
Qed.

Lemma all_ws_rev b : all_ws b = true -> all_ws (rev b) = true.
Proof.
  unfold all_ws; rewrite !forallb_forall; intros H x Hx.
  apply H; now apply in_rev.
Qed.

Lemma all_ws_app a b : all_ws a = true -> all_ws b = true -> all_ws (a ++ b) = true.
Proof. unfold all_ws; rewrite forallb_app; now intros -> ->. Qed.

Lemma trimEnd_ws y b : all_ws b = true -> trimEnd (y ++ b) = trimEnd y.
Proof.
  intros H; unfold trimEnd; rewrite rev_app_distr, trimStart_ws; auto using all_ws_rev.
Qed.

Lemma trimStart_all_ws b : all_ws b = true -> trimStart b = [].
Proof.
  intros H; rewrite <- (app_nil_r b), trimStart_ws; auto.
Qed.

Lemma trim_all_ws s : all_ws s = true -> trim s = [].
Proof. intros H; unfold trim; now rewrite trimStart_all_ws. Qed.

Lemma trim_ws a x b :
  all_ws a = true -> all_ws b = true -> trim (a ++ x ++ b) = trim x.
Proof.
  intros Ha Hb; unfold trim; rewrite trimStart_ws by assumption.
  induction x as [|c x IH]; simpl.
  - now rewrite trimStart_all_ws.
  - destruct (is_white_space c); [exact IH|].
    now rewrite app_comm_cons, trimEnd_ws.
Qed.



(** The text [Fetch]ed for a [text] that is not blank. *)
Example receipt_text_is_sent :
  POST (Some (VObj [(lit "text", VStr (lit "Milk 2 $3.50"))]))
  = Fetch (prompt (lit "Milk 2 $3.50")) after_fetch.
Proof. reflexivity. Qed.

(** ** Fence stripping *)

Lemma starts_with_app p s : starts_with p (p ++ s) = true.
Proof. induction p as [|a p IH]; simpl; [reflexivity|now rewrite Z.eqb_refl]. Qed.

Lemma starts_with_split p s :
  starts_with p s = true -> s = p ++ skipn (List.length p) s.
Proof.
  revert s; induction p as [|a p IH]; intros s; simpl; [reflexivity|].
  destruct s as [|b s]; [discriminate|].
  intros H; apply andb_prop in H as [H1 H2]; apply Z.eqb_eq in H1; subst b.
  f_equal; auto.
Qed.

Lemma remove_from_skip p k s : remove_from p k s = remove_all p (skipn k s).
Proof.
  revert k; induction s as [|c s IH]; intros [|k]; simpl; try reflexivity.
  apply IH.
Qed.

(** An occurrence at the head is dropped. *)
Lemma remove_all_head p s : p <> [] -> remove_all p (p ++ s) = remove_all p s.
Proof.
  destruct p as [|a p]; [congruence|intros _].
  unfold remove_all at 1; cbn [app remove_from].
  change (a :: p ++ s) with ((a :: p) ++ s); rewrite starts_with_app.
  rewrite remove_from_skip; cbn [List.length Nat.pred].
  now rewrite skipn_app, skipn_all, Nat.sub_diag.
Qed.

(** Without an occurrence at the head, the head is kept. *)
Lemma remove_all_keep p c s :
  starts_with p (c :: s) = false -> remove_all p (c :: s) = c :: remove_all p s.
Proof. unfold remove_all; cbn [remove_from]; now intros ->. Qed.

(** An occurrence that begins in [t] and does not end there goes on at the
    head of what follows. *)
Lemma starts_with_straddle p t sfx :
  starts_with p (t ++ sfx) = true ->
  starts_with p t = true
  \/ ((List.length t < List.length p)%nat
      /\ starts_with (skipn (List.length t) p) sfx = true).
Proof.
  revert t; induction p as [|a p IH]; intros t; [now left|].
  destruct t as [|b t]; simpl.
  - intros H; right; split; [lia|exact H].
  - intros H; apply andb_prop in H as [H1 H2]; rewrite H1.
    destruct (IH _ H2) as [H | [H3 H4]]; [now left|right; split; [lia|exact H4]].
Qed.

(** Where no occurrence can begin in [t] and end in [sfx], the two parts
    are cleaned independently. *)
Lemma remove_all_app p sfx :
  p <> [] ->
  (forall k, (0 < k < List.length p)%nat -> starts_with (skipn k p) sfx = false) ->
  forall t, remove_all p (t ++ sfx) = remove_all p t ++ remove_all p sfx.
Proof.
  intros Hp Hs t.
  remember (List.length t) as n eqn:Hn; revert t Hn.
  induction n as [n IH] using lt_wf_ind; intros t Hn.
  destruct t as [|c t]; [reflexivity|].
  destruct (starts_with p (c :: t)) eqn:E.
  - apply starts_with_split in E; rewrite E, <- app_assoc, !remove_all_head by assumption.
    apply (IH (List.length (skipn (List.length p) (c :: t)))); [|reflexivity].
    subst n; rewrite length_skipn; destruct p; [congruence|simpl; lia].
  - rewrite <- app_comm_cons, !remove_all_keep; trivial.
    + cbn [app]; f_equal; apply (IH (List.length t)); [subst n; simpl; lia|reflexivity].
    + destruct (starts_with p (c :: t ++ sfx)) eqn:F; [|reflexivity].
      rewrite app_comm_cons in F; apply starts_with_straddle in F as [F | [F1 F2]];
        [congruence|].
      rewrite Hs in F2; [discriminate|simpl in *; lia].
Qed.

Lemma starts_with_ws q c sfx :
  match q with x :: _ => is_white_space x = false | [] => False end ->
  is_white_space c = true -> starts_with q (c :: sfx) = false.
Proof.
  destruct q as [|x q]; [contradiction|]; intros Hx Hc; simpl.
  destruct (x =? c) eqn:E; [|reflexivity].
  apply Z.eqb_eq in E; congruence.
Qed.

(** Leading white space is not touched by the removal of a pattern that
    begins with another code unit. *)
Lemma remove_all_ws_prefix p ws s :
  match p with x :: _ => is_white_space x = false | [] => False end ->
  all_ws ws = true -> remove_all p (ws ++ s) = ws ++ remove_all p s.
Proof.
  intros Hp; induction ws as [|c ws IH]; [reflexivity|].
  intros H; cbn [app]; change (is_white_space c && all_ws ws = true) in H.
  apply andb_prop in H as [H1 H2].
  rewrite remove_all_keep by (apply starts_with_ws; assumption).
  now rewrite IH.
Qed.

Lemma remove_all_ws p ws :
  match p with x :: _ => is_white_space x = false | [] => False end ->
  all_ws ws = true -> remove_all p ws = ws.
Proof.
  intros Hp H; rewrite <- (app_nil_r ws) at 1.
  rewrite remove_all_ws_prefix by assumption; apply app_nil_r.
Qed.

(** A pattern that begins with another code unit than white space does
    not occur at the head of a string that is empty or begins with white
    space. *)
Lemma starts_with_ws_string q ws :
  match q with x :: _ => is_white_space x = false | [] => False end ->
  all_ws ws = true -> starts_with q ws = false.
Proof.
  destruct ws as [|c ws]; intros Hq H.
  - destruct q; [contradiction|reflexivity].
  - apply andb_prop in H as [H _]; now apply starts_with_ws.
Qed.

Lemma starts_with_cons a p s : starts_with (a :: p) (a :: s) = starts_with p s.
Proof. simpl; now rewrite Z.eqb_refl. Qed.

Lemma starts_with_cons_inv x p a s :
  starts_with (x :: p) (a :: s) = true -> a = x /\ starts_with p s = true.
Proof.
  simpl; intros H; apply andb_prop in H as [H1 H2].
  apply Z.eqb_eq in H1; auto.
Qed.

(** No occurrence at the head of backticks followed by white space. *)
Ltac no_occurrence J :=
  change fence_json with [96; 96; 96; 106; 115; 111; 110];
  change fence with [96; 96; 96];
  rewrite ?starts_with_cons; apply J; reflexivity.

(** No occurrence of [```json] ends inside a closing fence. *)
Lemma fence_json_no_straddle ws3 ws4 k :
  all_ws ws3 = true -> all_ws ws4 = true ->
  (0 < k < List.length fence_json)%nat ->
  starts_with (skipn k fence_json) (ws3 ++ fence ++ ws4) = false.
Proof.
  intros H3 H4 Hk; change (List.length fence_json) with 7%nat in Hk.
  destruct ws3 as [|c ws3].
  - do 7 (destruct k as [|k]; [first [lia | reflexivity]|]); lia.
  - apply andb_prop in H3 as [H3 _].
    do 7 (destruct k as [|k];
          [first [lia | apply starts_with_ws; [reflexivity|assumption]]|]); lia.
Qed.

(** The closing fence and what follows it hold no [```json]. *)
Lemma remove_fence_json_close ws3 ws4 :
  all_ws ws3 = true -> all_ws ws4 = true ->
  remove_all fence_json (ws3 ++ fence ++ ws4) = ws3 ++ fence ++ ws4.
Proof.
  intros H3 H4; rewrite remove_all_ws_prefix by (reflexivity || assumption).
  f_equal; change (fence ++ ws4) with (96 :: 96 :: 96 :: ws4).
  assert (J : forall q, match q with x :: _ => is_white_space x = false | [] => False end ->
                        starts_with q ws4 = false)
    by (intros; now apply starts_with_ws_string).
  rewrite !remove_all_keep by no_occurrence J.
  now rewrite remove_all_ws.
Qed.

(** The first replacement on a fenced text. *)
Lemma remove_fence_json_fenced ws1 ws2 ws3 ws4 t :
  all_ws ws1 = true -> all_ws ws2 = true ->
  all_ws ws3 = true -> all_ws ws4 = true ->
  remove_all fence_json (ws1 ++ fence_json ++ ws2 ++ t ++ ws3 ++ fence ++ ws4)
  = ws1 ++ ws2 ++ remove_all fence_json t ++ ws3 ++ fence ++ ws4.
Proof.
  intros H1 H2 H3 H4.
  rewrite remove_all_ws_prefix by (reflexivity || assumption).
  rewrite remove_all_head by discriminate.
  rewrite remove_all_ws_prefix by (reflexivity || assumption).
  rewrite remove_all_app; [|discriminate|intros; now apply fence_json_no_straddle].
  now rewrite remove_fence_json_close.
Qed.

Lemma remove_fence_backticks ws4 :
  all_ws ws4 = true ->
  remove_all fence (96 :: ws4) = 96 :: ws4
  /\ remove_all fence (96 :: 96 :: ws4) = 96 :: 96 :: ws4.
Proof.
  intros H4.
  assert (J : forall q, match q with x :: _ => is_white_space x = false | [] => False end ->
                        starts_with q ws4 = false)
    by (intros; now apply starts_with_ws_string).
  assert (K : remove_all fence (96 :: ws4) = 96 :: ws4).
  { rewrite remove_all_keep by no_occurrence J.
    now rewrite remove_all_ws. }
  split; [exact K|].
  rewrite remove_all_keep by no_occurrence J.
  now rewrite K.
Qed.

(** The second replacement where the closing fence follows at once: the
    backticks that end [u] may take part in the occurrence that is
    removed, and as many are left as [u] alone would leave. *)
Lemma remove_fence_close ws4 :
  all_ws ws4 = true ->
  forall u, remove_all fence (u ++ fence ++ ws4) = remove_all fence u ++ ws4.
Proof.
  intros H4 u.
  destruct (remove_fence_backticks ws4 H4) as [B1 B2].
  remember (List.length u) as n eqn:Hn; revert u Hn.
  induction n as [n IH] using lt_wf_ind; intros u Hn.
  destruct u as [|a u].
  - cbn [app]; rewrite remove_all_head by discriminate.
    now rewrite remove_all_ws.
  - destruct (starts_with fence (a :: u)) eqn:E.
    + apply starts_with_split in E; rewrite E, <- app_assoc.
      rewrite !remove_all_head by discriminate.
      apply (IH (List.length (skipn (List.length fence) (a :: u)))); [|reflexivity].
      subst n; rewrite length_skipn; simpl; lia.
    + destruct (starts_with fence ((a :: u) ++ fence ++ ws4)) eqn:F.
      * (* the occurrence begins in [u] and ends in the fence *)
        change fence with [96; 96; 96] in E, F.
        destruct u as [|b [|c u]]; cbn [app] in F.
        -- apply starts_with_cons_inv in F as [-> _].
           change (remove_all fence (fence ++ 96 :: ws4) = 96 :: ws4).
           rewrite remove_all_head by discriminate; exact B1.
        -- apply starts_with_cons_inv in F as [-> F].
           apply starts_with_cons_inv in F as [-> _].
           change (remove_all fence (fence ++ 96 :: 96 :: ws4) = 96 :: 96 :: ws4).
           rewrite remove_all_head by discriminate; exact B2.
        -- apply starts_with_cons_inv in F as [-> F].
           apply starts_with_cons_inv in F as [-> F].
           apply starts_with_cons_inv in F as [-> _].
           rewrite !starts_with_cons in E; discriminate.
      * cbn [app] in *; rewrite !remove_all_keep by assumption.
        cbn [app]; f_equal; apply (IH (List.length u)); [subst n; simpl; lia|reflexivity].
Qed.

Lemma fence_no_straddle c ws3 ws4 k :
  is_white_space c = true ->
  (0 < k < List.length fence)%nat ->
  starts_with (skipn k fence) (c :: ws3 ++ fence ++ ws4) = false.
Proof.
  intros Hc Hk; change (List.length fence) with 3%nat in Hk.
  do 3 (destruct k as [|k];
        [first [lia | apply starts_with_ws; [reflexivity|assumption]]|]); lia.
Qed.

(** The second replacement on what the first one leaves. *)
Lemma remove_fence_fenced ws1 ws2 ws3 ws4 u :
  all_ws ws1 = true -> all_ws ws2 = true ->
  all_ws ws3 = true -> all_ws ws4 = true ->
  remove_all fence (ws1 ++ ws2 ++ u ++ ws3 ++ fence ++ ws4)
  = ws1 ++ ws2 ++ remove_all fence u ++ ws3 ++ ws4.
Proof.
  intros H1 H2 H3 H4.
  rewrite !remove_all_ws_prefix by (reflexivity || assumption).
  do 2 f_equal.
  destruct ws3 as [|c ws3].
  - cbn [app]; now apply remove_fence_close.
  - pose proof H3 as H3'; apply andb_prop in H3' as [Hc H3'].
    rewrite <- app_comm_cons, remove_all_app;
      [|discriminate|intros; now apply fence_no_straddle].
    f_equal; rewrite app_comm_cons.
    rewrite remove_all_ws_prefix by (reflexivity || assumption).
    rewrite remove_all_head by discriminate.
    now rewrite remove_all_ws.
Qed.

Lemma cleanedText_fenced ws1 ws2 ws3 ws4 t :
  all_ws ws1 = true -> all_ws ws2 = true ->
  all_ws ws3 = true -> all_ws ws4 = true ->
  cleanedText (fenced ws1 ws2 ws3 ws4 t) = cleanedText t.
Proof.
  intros H1 H2 H3 H4; unfold cleanedText, fenced.
  rewrite remove_fence_json_fenced, remove_fence_fenced by assumption.
  rewrite (app_assoc ws1 ws2).
  apply trim_ws; now apply all_ws_app.
Qed.

(** C8, as stated, fails: a text that is not JSON comes back in [raw] as
    it was sent, so the fenced text and the text itself give different
    records. *)
Lemma fenced_refusal_differs :
  normalize (fenced [] [10] [10] [] (lit "Sorry"))
  = VObj [(lit "raw", VStr (lit "```json" ++ [10] ++ lit "Sorry" ++ [10] ++ lit "```"));
          (lit "error", VStr (lit "Could not parse structured data"))]
  /\ normalize (lit "Sorry")
     = VObj [(lit "raw", VStr (lit "Sorry"));
             (lit "error", VStr (lit "Could not parse structured data"))]
  /\ normalize (fenced [] [10] [10] [] (lit "Sorry")) <> normalize (lit "Sorry").
Proof.
  repeat split; try (vm_compute; reflexivity).
  vm_compute; discriminate.
Qed.

(** C8 (amended): a completion text in a fenced code block, with white
    space around the fences, is cleaned to the same text as the completion
    text alone; where that text is JSON the two records are equal, and
    where it is not each record holds its own text in [raw]. *)
Theorem fenced_completion (ws1 ws2 ws3 ws4 t : jsstring) :
  all_ws ws1 = true -> all_ws ws2 = true ->
  all_ws ws3 = true -> all_ws ws4 = true ->
  cleanedText (fenced ws1 ws2 ws3 ws4 t) = cleanedText t
  /\ normalize (fenced ws1 ws2 ws3 ws4 t)
     = match JSON.parse (cleanedText t) with
       | Some _ => normalize t
       | None => degraded (VStr (fenced ws1 ws2 ws3 ws4 t))
       end.
Proof.
  intros H1 H2 H3 H4.
  pose proof (cleanedText_fenced ws1 ws2 ws3 ws4 t H1 H2 H3 H4) as E.
  split; [exact E|].
  unfold normalize; rewrite E.
  destruct (JSON.parse (cleanedText t)); reflexivity.
Qed.

Lemma fenced_completion_witness :
  normalize (fenced [] [10] [10] [] (json_text "{'total': 42.99, 'taxes': {'amount': 3.45}}"))
  = normalize (json_text "{'total': 42.99, 'taxes': {'amount': 3.45}}").
Proof.
  exact (proj2 (fenced_completion [] [10] [10] []
                  (json_text "{'total': 42.99, 'taxes': {'amount': 3.45}}")
                  eq_refl eq_refl eq_refl eq_refl)).
Defined.

(** ** Sums of charges *)

Lemma add_comm x y : Num.add x y = Num.add y x.
Proof.
  unfold Num.add; destruct x as [[|]|[|]| |sx mx ex], y as [[|]|[|]| |sy my ey];
    try reflexivity.
  unfold SFadd; now rewrite Z.min_comm, Z.add_comm.
Qed.

(** Adding to the zero the sum starts from gives the same number, up to
    the sign of a zero. *)
Lemma add_zero_l x :
  Num.add Num.zero x = match x with S754_zero _ => Num.zero | _ => x end.
Proof. destruct x as [[|]|[|]| |sx mx ex]; reflexivity. Qed.

Lemma add_first_two x y :
  Num.add (Num.add Num.zero x) y = Num.add (Num.add Num.zero y) x.
Proof.
  rewrite !add_zero_l.
  destruct x as [[|]|[|]| |sx mx ex], y as [[|]|[|]| |sy my ey];
    try reflexivity; apply add_comm.
Qed.

Lemma add_discount_eq total discount :
  add_discount total discount
  = (amount <- entry_amount discount ;; Return (Num.add total amount)).
Proof. destruct discount; reflexivity. Qed.

Lemma reduce_two a b :
  reduce_m add_discount [a; b] Num.zero
  = (x <- entry_amount a ;; y <- entry_amount b ;;
     Return (Num.add (Num.add Num.zero x) y)).
Proof.
  cbn [reduce_m]; rewrite add_discount_eq.
  destruct (entry_amount a) as [x|e]; cbn [bind]; [|reflexivity].
  rewrite add_discount_eq; destruct (entry_amount b); reflexivity.
Qed.

Lemma sum_of_two a b :
  reduce_m add_discount [a; b] Num.zero = reduce_m add_discount [b; a] Num.zero.
Proof.
  rewrite !reduce_two.
  destruct (entry_amount a) as [x|[]], (entry_amount b) as [y|[]]; cbn [bind];
    try reflexivity.
  now rewrite add_first_two.
Qed.

(** *** Sums of whole numbers are exact *)

Lemma iter_pos_nat {A} (f : A -> A) p x :
  iter_pos f p x = Nat.iter (Pos.to_nat p) f x.
Proof.
  revert x; induction p as [p IH|p IH|]; intros x; cbn [iter_pos].
  - rewrite !IH, Pos2Nat.inj_xI.
    replace (S (2 * Pos.to_nat p)) with (Pos.to_nat p + S (Pos.to_nat p))%nat by lia.
    rewrite Nat.iter_add, Nat.iter_succ_r. reflexivity.
  - rewrite !IH, Pos2Nat.inj_xO.
    replace (2 * Pos.to_nat p)%nat with (Pos.to_nat p + Pos.to_nat p)%nat by lia.
    now rewrite Nat.iter_add.
  - reflexivity.
Qed.

Lemma pos_iter_shift m p : Pos.iter xO m p = shift m (Pos.to_nat p).
Proof. apply Pos2Nat.inj_iter. Qed.

Lemma digits_shift m n :
  Zpos (digits2_pos (shift m n)) = Zpos (digits2_pos m) + Z.of_nat n.
Proof.
  induction n as [|n IH]; [simpl; lia|].
  change (shift m (S n)) with (xO (shift m n)).
  cbn [digits2_pos]. rewrite Pos2Z.inj_succ, IH. lia.
Qed.

Lemma shr_shift m n :
  Nat.iter n shr_1 {| shr_m := Zpos (shift m n); shr_r := false; shr_s := false |}
  = {| shr_m := Zpos m; shr_r := false; shr_s := false |}.
Proof.
  induction n as [|n IH]; [reflexivity|].
  rewrite Nat.iter_succ_r. exact IH.
Qed.

Lemma fexp_canonical t :
  -1074 <= t -> fexp prec emax (prec + t) = t.
Proof. unfold fexp, emin, prec, emax; lia. Qed.

(** A mantissa of 53 bits with an exponent in range is not rounded. *)
Lemma round_aux_canonical s m t :
  Zpos (digits2_pos m) = prec -> -1074 <= t <= 971 ->
  binary_round_aux prec emax s (Zpos m) t loc_Exact = S754_finite s m t.
Proof.
  intros Hd Ht; unfold binary_round_aux, shr_fexp.
  cbn [Zdigits2 shr_record_of_loc]; rewrite Hd, fexp_canonical, Z.sub_diag by lia.
  cbn [shr shr_m loc_of_shr_record round_nearest_even Zdigits2 shr_record_of_loc].
  rewrite Hd, fexp_canonical, Z.sub_diag by lia.
  cbn [shr shr_m].
  replace (t <=? emax - prec) with true; [reflexivity|].
  symmetry; apply Z.leb_le; unfold emax, prec; lia.
Qed.

(** A mantissa that is a canonical one shifted to the left is shifted back
    without loss. *)
Lemma round_shifted_left s m t j :
  Zpos (digits2_pos m) = prec -> -1074 <= t <= 971 ->
  binary_round prec emax s (shift m j) (t - Z.of_nat j) = S754_finite s m t.
Proof.
  intros Hd Ht; unfold binary_round.
  rewrite digits_shift, Hd.
  replace (prec + Z.of_nat j + (t - Z.of_nat j)) with (prec + t) by lia.
  rewrite fexp_canonical by lia.
  unfold shl_align.
  replace (t - (t - Z.of_nat j)) with (Z.of_nat j) by lia.
  destruct j as [|j].
  - cbn [Z.of_nat]; rewrite Z.sub_0_r; now apply round_aux_canonical.
  - rewrite Nat2Z.inj_succ, <- Zpos_P_of_succ_nat.
    unfold binary_round_aux, shr_fexp.
    cbn [Zdigits2 shr_record_of_loc]; rewrite digits_shift, Hd.
    set (p := Pos.of_succ_nat j).
    replace (prec + Z.of_nat (S j) + (t - Zpos p)) with (prec + t) by (unfold p; lia).
    rewrite fexp_canonical by lia.
    replace (t - (t - Zpos p)) with (Zpos p) by lia.
    cbn [shr]; rewrite iter_pos_nat.
    replace (Pos.to_nat p) with (S j) by (unfold p; lia).
    rewrite shr_shift.
    cbn [shr_m loc_of_shr_record round_nearest_even Zdigits2 shr_record_of_loc].
    replace (t - Zpos p + Zpos p) with t by lia.
    rewrite Hd, fexp_canonical, Z.sub_diag by lia.
    cbn [shr shr_m].
    replace (t <=? emax - prec) with true; [reflexivity|].
    symmetry; apply Z.leb_le; unfold emax, prec; lia.
Qed.

(** A mantissa shorter than 53 bits is shifted to the left. *)
Lemma round_shifted_right s M t j :
  Zpos (digits2_pos (shift M j)) = prec -> -1074 <= t <= 971 ->
  binary_round prec emax s M (t + Z.of_nat j) = S754_finite s (shift M j) t.
Proof.
  intros Hd Ht; unfold binary_round.
  rewrite digits_shift in Hd.
  replace (Zpos (digits2_pos M) + (t + Z.of_nat j)) with (prec + t) by lia.
  rewrite fexp_canonical by lia.
  unfold shl_align.
  replace (t - (t + Z.of_nat j)) with (- Z.of_nat j) by lia.
  destruct j as [|j].
  - cbn [Z.of_nat Z.opp]; rewrite Z.add_0_r.
    apply round_aux_canonical; [|lia]. change (shift M 0) with M. lia.
  - rewrite Nat2Z.inj_succ, <- Zpos_P_of_succ_nat; cbn [Z.opp].
    rewrite pos_iter_shift, SuccNat2Pos.id_succ.
    apply round_aux_canonical; [|lia].
    rewrite digits_shift; lia.
Qed.

Lemma shift_add m a b : shift (shift m a) b = shift m (a + b).
Proof. unfold shift; now rewrite Nat.add_comm, Nat.iter_add. Qed.

Lemma shift_Z m n : Zpos (shift m n) = Zpos m * 2 ^ Z.of_nat n.
Proof.
  induction n as [|n IH]; [simpl; lia|].
  change (shift m (S n)) with (xO (shift m n)).
  rewrite Pos2Z.inj_xO, IH, Nat2Z.inj_succ, Z.pow_succ_r by lia; lia.
Qed.

Lemma digits_lower v : 2 ^ (Zpos (digits2_pos v) - 1) <= Zpos v.
Proof.
  induction v as [v IH|v IH|]; cbn [digits2_pos]; [| |simpl; lia];
    rewrite Pos2Z.inj_succ;
    replace (Z.succ (Zpos (digits2_pos v)) - 1) with (Z.succ (Zpos (digits2_pos v) - 1))
      by lia;
    rewrite Z.pow_succ_r by lia; lia.
Qed.

Lemma digits_bound v : Zpos v < 2 ^ 53 -> Zpos (digits2_pos v) <= prec.
Proof.
  intros H; destruct (Z_le_gt_dec (Zpos (digits2_pos v)) prec) as [L|G]; [exact L|].
  exfalso; pose proof (digits_lower v) as D.
  assert (2 ^ 53 <= 2 ^ (Zpos (digits2_pos v) - 1))
    by (apply Z.pow_le_mono_r; unfold prec in G; lia).
  lia.
Qed.

Lemma round_whole s v n :
  Zpos (digits2_pos v) <= prec ->
  binary_round prec emax s (shift v n) (- Z.of_nat n) = whole s v.
Proof.
  intros Hd; unfold whole.
  set (d := Zpos (digits2_pos v)) in *.
  assert (0 < d) by (unfold d; lia).
  destruct (Z_le_gt_dec (prec - d) (Z.of_nat n)) as [L|G].
  - replace n with (Z.to_nat (prec - d) + Z.to_nat (Z.of_nat n - (prec - d)))%nat at 1 by lia.
    rewrite <- shift_add.
    replace (- Z.of_nat n) with (d - prec - Z.of_nat (Z.to_nat (Z.of_nat n - (prec - d))))
      by lia.
    apply round_shifted_left; [|unfold prec in *; lia].
    rewrite digits_shift; fold d; lia.
  - replace (Z.to_nat (prec - d)) with (n + Z.to_nat (prec - d - Z.of_nat n))%nat by lia.
    rewrite <- shift_add.
    replace (- Z.of_nat n) with (d - prec + Z.of_nat (Z.to_nat (prec - d - Z.of_nat n)))
      by lia.
    apply round_shifted_right; [|unfold prec in *; lia].
    rewrite shift_add, digits_shift; fold d; lia.
Qed.

Lemma normalize_whole k n :
  Z.abs k < 2 ^ 53 ->
  binary_normalize prec emax (k * 2 ^ Z.of_nat n) (- Z.of_nat n) false = of_int k.
Proof.
  intros Hk; destruct k as [|v|v]; [reflexivity| |].
  - rewrite <- shift_Z; cbn [binary_normalize of_int].
    apply round_whole, digits_bound; lia.
  - change (Zneg v) with (- Zpos v); rewrite Z.mul_opp_l, <- shift_Z.
    cbn [Z.opp binary_normalize of_int].
    apply round_whole, digits_bound; lia.
Qed.

Lemma of_Z_int k :
  Z.abs k < 2 ^ 53 -> Num.of_Z k = of_int k.
Proof.
  intros Hk; pose proof (normalize_whole k 0 Hk) as N; unfold Num.of_Z.
  cbn [Z.of_nat Z.opp] in N; now rewrite Z.pow_0_r, Z.mul_1_r in N.
Qed.

Lemma shl_align_shift m e ez :
  ez <= e -> fst (shl_align m e ez) = shift m (Z.to_nat (e - ez)).
Proof.
  intros H; unfold shl_align.
  destruct (ez - e) as [|p|p] eqn:E; try lia.
  - replace (e - ez) with 0 by lia; reflexivity.
  - cbn [fst]; rewrite pos_iter_shift; f_equal; lia.
Qed.

Lemma add_int a b :
  Z.abs a < 2 ^ 53 -> Z.abs b < 2 ^ 53 -> Z.abs (a + b) < 2 ^ 53 ->
  Num.add (of_int a) (of_int b) = of_int (a + b).
Proof.
  intros Ha Hb Hab.
  destruct a as [|va|va]; [destruct b; reflexivity| |];
    (destruct b as [|vb|vb]; [rewrite Z.add_0_r; reflexivity| |]).
  all: cbn [of_int]; unfold whole at 1 2; unfold Num.add; cbn [SFadd].
  all: set (da := Zpos (digits2_pos va)); set (db := Zpos (digits2_pos vb)).
  all: assert (Hda : da <= prec) by (apply digits_bound; lia).
  all: assert (Hdb : db <= prec) by (apply digits_bound; lia).
  all: assert (0 < da) by (unfold da; lia); assert (0 < db) by (unfold db; lia).
  all: set (ez := Z.min (da - prec) (db - prec)).
  all: rewrite !shl_align_shift, !shift_add by (unfold ez; lia).
  all: set (n := Z.to_nat (- ez)).
  all: replace (Z.to_nat (prec - da) + Z.to_nat (da - prec - ez))%nat with n
         by (unfold n, ez; lia).
  all: replace (Z.to_nat (prec - db) + Z.to_nat (db - prec - ez))%nat with n
         by (unfold n, ez; lia).
  all: replace ez with (- Z.of_nat n) by (unfold n, ez; lia).
  all: cbn [cond_Zopp]; rewrite !shift_Z.
  - rewrite <- Z.mul_add_distr_r; now apply normalize_whole.
  - change (- (Zpos vb * 2 ^ Z.of_nat n)) with (- (Zpos vb * 2 ^ Z.of_nat n)).
    rewrite <- Z.mul_opp_l, <- Z.mul_add_distr_r; now apply normalize_whole.
  - rewrite <- Z.mul_opp_l, <- Z.mul_add_distr_r; now apply normalize_whole.
  - rewrite <- !Z.mul_opp_l, <- Z.mul_add_distr_r; now apply normalize_whole.
Qed.

Lemma add_whole a b :
  Z.abs a < 2 ^ 53 -> Z.abs b < 2 ^ 53 -> Z.abs (a + b) < 2 ^ 53 ->
  Num.add (Num.of_Z a) (Num.of_Z b) = Num.of_Z (a + b).
Proof. intros Ha Hb Hab; rewrite !of_Z_int by assumption; now apply add_int. Qed.

Lemma magnitude_nonneg ks : 0 <= magnitude ks.
Proof. induction ks as [|k ks IH]; simpl; lia. Qed.

Lemma total_le_magnitude ks : Z.abs (total ks) <= magnitude ks.
Proof. induction ks as [|k ks IH]; simpl; lia. Qed.

Lemma total_perm ks ks' : Permutation ks ks' -> total ks = total ks'.
Proof. induction 1; simpl; lia. Qed.

Lemma magnitude_perm ks ks' : Permutation ks ks' -> magnitude ks = magnitude ks'.
Proof. induction 1; simpl; lia. Qed.

(** The accumulation over entries with whole amounts stays exact while
    the magnitudes fit in 53 bits. *)
Lemma reduce_whole l ks :
  Forall2 whole_entry l ks ->
  forall acc, Z.abs acc + magnitude ks < 2 ^ 53 ->
  reduce_m add_discount l (Num.of_Z acc) = Return (Num.of_Z (acc + total ks)).
Proof.
  induction 1 as [|e k l ks [Hn He] Hl IH]; intros acc Hacc.
  - simpl; now rewrite Z.add_0_r.
  - cbn [magnitude fold_right] in Hacc; fold (magnitude ks) in Hacc.
    pose proof (magnitude_nonneg ks) as M.
    cbn [reduce_m]; rewrite add_discount_eq.
    assert (E : entry_amount e = Return (Num.of_Z k))
      by (destruct e; try congruence; unfold entry_amount; now rewrite He).
    rewrite E; cbn [bind]; rewrite add_whole by lia.
    rewrite IH by lia.
    cbn [total fold_right]; fold (total ks); do 2 f_equal; lia.
Qed.

(** C7, as stated, fails: the sum is accumulated from left to right in
    binary64 arithmetic, whose addition is not associative.  The charges
    0.1, 0.2, 0.3 sum to 0.6000000000000001, and in the opposite order
    to 0.6. *)
Lemma sum_depends_on_order :
  JSON.parse (json_text "[{'amount':0.1},{'amount':0.2},{'amount':0.3}]")
  = Some (VArr [charge n01; charge n02; charge n03])
  /\ Permutation [charge n01; charge n02; charge n03]
                 [charge n03; charge n02; charge n01]
  /\ (exists x y,
        calculateTotalDiscounts (Some (VArr [charge n01; charge n02; charge n03]))
        = Return x
        /\ calculateTotalDiscounts (Some (VArr [charge n03; charge n02; charge n01]))
           = Return y
        /\ Num.toString x = lit "0.6000000000000001"
        /\ Num.toString y = lit "0.6"
        /\ x <> y)
  /\ calculateTotalDiscounts (Some (VArr [charge n01; charge n02; charge n03]))
     <> calculateTotalDiscounts (Some (VArr [charge n03; charge n02; charge n01])).
Proof.
  split; [vm_compute; reflexivity|].
  split; [apply (Permutation_rev [charge n01; charge n02; charge n03])|].
  split.
  - eexists; eexists; split; [vm_compute; reflexivity|].
    split; [vm_compute; reflexivity|].
    split; [vm_compute; reflexivity|].
    split; [vm_compute; reflexivity|discriminate].
  - vm_compute; discriminate.
Qed.

(** C7 (amended): for every array and every permutation of it, the sums
    are equal when the array has at most two entries (the addition of
    numbers is commutative), and when the amounts of its entries are whole
    numbers whose absolute values sum to less than [2 ^ 53] (every partial
    sum is then exact).  Otherwise the order can matter. *)
Theorem sum_any_order (l l' : list value) :
  Permutation l l' ->
  (List.length l <= 2)%nat
  \/ (exists ks, Forall2 whole_entry l ks /\ magnitude ks < 2 ^ 53) ->
  calculateTotalDiscounts (Some (VArr l)) = calculateTotalDiscounts (Some (VArr l')).
Proof.
  intros P [Hl | (ks & Hks & Hm)]; cbn [calculateTotalDiscounts truthy negb].
  - destruct l as [|a [|b [|c l]]].
    + apply Permutation_nil in P; now subst.
    + apply Permutation_length_1_inv in P; now subst.
    + apply Permutation_length_2_inv in P as [-> | ->]; [reflexivity|apply sum_of_two].
    + simpl in Hl; lia.
  - destruct (Permutation_Forall2 P Hks) as (ks' & Pk & Hks').
    change Num.zero with (Num.of_Z 0).
    rewrite (reduce_whole l ks Hks), (reduce_whole l' ks' Hks').
    + now rewrite (total_perm _ _ Pk).
    + rewrite <- (magnitude_perm _ _ Pk); simpl; lia.
    + simpl; lia.
Qed.

Lemma sum_any_order_witness :
  calculateTotalDiscounts (Some (VArr [charge n01; charge n02]))
  = calculateTotalDiscounts (Some (VArr [charge n02; charge n01]))
  /\ calculateTotalDiscounts
       (Some (VArr [charge (Num.of_Z 1); charge (Num.of_Z 2); charge (Num.of_Z 3)]))
     = calculateTotalDiscounts
         (Some (VArr [charge (Num.of_Z 3); charge (Num.of_Z 2); charge (Num.of_Z 1)])).
Proof.
  split.
  - apply (sum_any_order [charge n01; charge n02] [charge n02; charge n01]).
    + apply perm_swap.
    + left; simpl; lia.
  - apply (sum_any_order
             [charge (Num.of_Z 1); charge (Num.of_Z 2); charge (Num.of_Z 3)]
             [charge (Num.of_Z 3); charge (Num.of_Z 2); charge (Num.of_Z 1)]).
    + apply (Permutation_rev [charge (Num.of_Z 1); charge (Num.of_Z 2); charge (Num.of_Z 3)]).
    + right; exists [1; 2; 3]; split.
      * repeat constructor; discriminate.
      * vm_compute; reflexivity.
Defined.

(** *** The sum against its specification *)










Example sum_of_mixed_amounts :
  option_map Num.toString
    (match calculateTotalDiscounts
             (JSON.parse (json_text "[{'type':'a','amount':1.5},{'amount':'2.25'},{'amount':'n/a'}]"))
     with Return r => Some r | Throw _ => None end)
  = Some (lit "3.75").
Proof. vm_compute. reflexivity. Qed.

(** ** The display of a value *)






Lemma occurs_unfold p s :
  Display.occurs p s
  = starts_with p s || match s with [] => false | _ :: r => Display.occurs p r end.
Proof. destruct s; reflexivity. Qed.






Example formatValue_examples :
  formatValue (JSON.parse (json_text "42.99")) = Return (lit "42.99")
  /\ formatValue (JSON.parse (json_text "{'type':'USD','amount':3.45}"))
     = Return (lit "$3.45")
  /\ formatValue (JSON.parse (json_text "{'type':'EUR','amount':3.45}"))
     = Return (lit "3.45 EUR")
  /\ formatValue (JSON.parse (json_text
       "[{'type':'Sales Tax','amount':3.45},{'type':'City','amount':'1'}]"))
     = Return (lit "Sales Tax: 3.45, City: 1")
  /\ formatValue (JSON.parse (json_text "[null]")) = Throw TypeError.
Proof. repeat split; vm_compute; reflexivity. Qed.

(* ================================================================= *)
(** * Further properties of the endpoint *)

(** ** The coercion of [items] and what the coercion leaves alone *)

(** X1: for every completion that parses, [items] of the record holds the
    shape of what was parsed: an array is left unchanged, any other truthy
    value (an object, but also a string, a number or [true]) is replaced by
    the one-element array containing it, and a falsy or absent [items] is
    left as it is. *)
Theorem coerce_items (generated : jsstring) (parsedData : value) :
  JSON.parse (cleanedText generated) = Some parsedData ->
  get (normalize generated) items = option_map items_shape (get parsedData items).
Proof.
  intros H; unfold normalize; rewrite H; apply get_coerce_items.
Qed.

Lemma coerce_items_witness :
  get (normalize (json_text "{'items': 'Milk'}")) items
  = Some (VArr [VStr (lit "Milk")]).
Proof.
  rewrite (coerce_items (json_text "{'items': 'Milk'}")
             (VObj [(items, VStr (lit "Milk"))])).
  - reflexivity.
  - vm_compute; reflexivity.
Defined.

Lemma keys_update k x ps : map fst (update k x ps) = map fst ps.
Proof.
  induction ps as [|[k' v'] ps IH]; simpl; [reflexivity|].
  destruct (Str.eqb k k'); simpl; [reflexivity|now rewrite IH].
Qed.

Lemma keys_reshape k f v : keys (reshape k f v) = keys v.
Proof.
  unfold reshape; destruct (get v k) as [x|] eqn:G; [|reflexivity].
  destruct (truthy x && negb (isArray x)); [|reflexivity].
  destruct v; try reflexivity; simpl in G |- *.
  rewrite (define_present _ _ _ _ G); apply keys_update.
Qed.

Lemma object_reshape k f v :
  match v with
  | VObj _ => exists ps', reshape k f v = VObj ps'
  | _ => reshape k f v = v
  end.
Proof.
  unfold reshape; destruct v as [| b | n | s | l | ps];
    try (destruct (get _ k) as [x|]; [destruct (truthy x && negb (isArray x))|];
         reflexivity).
  destruct (get (VObj ps) k) as [x|]; [|eauto].
  destruct (truthy x && negb (isArray x)); simpl; eauto.
Qed.

Lemma keys_coerce v : keys (coerce v) = keys v.
Proof.
  rewrite coerce_unfold; destruct (truthy v); [|reflexivity].
  now rewrite !keys_reshape.
Qed.

Lemma coerce_not_object v :
  match v with
  | VObj _ => exists ps', coerce v = VObj ps'
  | _ => coerce v = v
  end.
Proof.
  rewrite coerce_unfold; destruct (truthy v) eqn:T.
  - pose proof (object_reshape taxes charge_shape v) as H1.
    destruct v as [| b | n | s | l | ps];
      try (rewrite H1;
           match goal with
           | |- context [reshape discounts charge_shape ?w] =>
               pose proof (object_reshape discounts charge_shape w) as H2;
               cbv beta iota in H2; rewrite H2;
               pose proof (object_reshape items items_shape w) as H3;
               cbv beta iota in H3; exact H3
           end).
    destruct H1 as [ps1 ->].
    destruct (object_reshape discounts charge_shape (VObj ps1)) as [ps2 ->].
    apply (object_reshape items items_shape (VObj ps2)).
  - destruct v; eauto.
Qed.

(** X2: the coercion creates, removes and reorders no field: the keys of
    the record are the keys that were parsed, in the same order; every field
    other than [taxes], [discounts] and [items] holds what was parsed; and a
    completion that is not an object (an array, a string, a number, a
    boolean, [null]) is returned as it was parsed. *)
Theorem coerce_keeps_fields (v : value) :
  keys (coerce v) = keys v
  /\ (forall k, k <> taxes -> k <> discounts -> k <> items ->
                get (coerce v) k = get v k)
  /\ match v with
     | VObj _ => exists ps', coerce v = VObj ps'
     | _ => coerce v = v
     end.
Proof.
  split; [apply keys_coerce|].
  split; [intros; now apply get_coerce_other|apply coerce_not_object].
Qed.

Lemma coerce_keeps_fields_witness :
  get (coerce (VObj [(lit "total", VStr (lit "4.06")); (taxes, VNum (Num.of_Z 5))]))
      (lit "total")
  = Some (VStr (lit "4.06")).
Proof.
  rewrite (proj1 (proj2 (coerce_keeps_fields
             (VObj [(lit "total", VStr (lit "4.06")); (taxes, VNum (Num.of_Z 5))])))
             (lit "total")); [reflexivity|discriminate..].
Defined.

(** ** What the cleaning leaves *)

Lemma remove_fence_cases s :
  (exists rest, s = fence ++ rest /\ remove_all fence s = remove_all fence rest)
  \/ (starts_with fence s = false
      /\ match s with
         | [] => remove_all fence s = []
         | c :: s' => remove_all fence s = c :: remove_all fence s'
         end).
Proof.
  destruct (starts_with fence s) eqn:E.
  - left; apply starts_with_split in E; eexists; split; [exact E|].
    rewrite E at 1; now rewrite remove_all_head by discriminate.
  - right; split; [reflexivity|].
    destruct s as [|c s']; [reflexivity|now apply remove_all_keep].
Qed.

Lemma remove_fence_head1 s :
  starts_with [96] (remove_all fence s) = true -> starts_with [96] s = true.
Proof.
  destruct (remove_fence_cases s) as [(rest & -> & _) | [_ H]]; [reflexivity|].
  destruct s as [|c s']; rewrite H; [discriminate|].
  intros F; apply starts_with_cons_inv in F as [-> _]; reflexivity.
Qed.

Lemma remove_fence_head2 s :
  starts_with [96; 96] (remove_all fence s) = true -> starts_with [96; 96] s = true.
Proof.
  destruct (remove_fence_cases s) as [(rest & -> & _) | [_ H]]; [reflexivity|].
  destruct s as [|c s']; rewrite H; [discriminate|].
  intros F; apply starts_with_cons_inv in F as [-> F].
  apply remove_fence_head1 in F; now rewrite starts_with_cons.
Qed.

(** After the second replacement no fence is left. *)
Lemma remove_fence_none s : occurs fence (remove_all fence s) = false.
Proof.
  remember (List.length s) as n eqn:Hn; revert s Hn.
  induction n as [n IH] using lt_wf_ind; intros s Hn.
  destruct (remove_fence_cases s) as [(rest & -> & ->) | [E H]].
  - apply (IH (List.length rest)); [subst n; rewrite length_app; simpl; lia|reflexivity].
  - destruct s as [|c s']; rewrite H; [reflexivity|].
    rewrite occurs_unfold, (IH (List.length s')) by (subst n; simpl; lia || reflexivity).
    rewrite orb_false_r.
    destruct (starts_with fence (c :: remove_all fence s')) eqn:F; [|reflexivity].
    change fence with [96; 96; 96] in F, E.
    apply starts_with_cons_inv in F as [-> F]; apply remove_fence_head2 in F.
    rewrite starts_with_cons in E; congruence.
Qed.

Lemma starts_with_app_l p x w :
  starts_with p x = true -> starts_with p (x ++ w) = true.
Proof.
  revert x; induction p as [|a p IH]; intros [|b x]; simpl; try discriminate; auto.
  intros H; apply andb_prop in H as [-> H]; simpl; auto.
Qed.

Lemma occurs_app_l p x w : occurs p x = true -> occurs p (x ++ w) = true.
Proof.
  induction x as [|c x IH].
  - rewrite (occurs_unfold p []), (occurs_unfold p ([] ++ w)), orb_false_r.
    intros H; now rewrite (starts_with_app_l _ _ w H).
  - rewrite (occurs_unfold p (c :: x)), (occurs_unfold p ((c :: x) ++ w)).
    intros H; apply orb_prop in H as [H | H].
    + now rewrite (starts_with_app_l _ _ w H).
    + cbn [app]; rewrite (IH H); apply orb_true_r.
Qed.

Lemma occurs_trimStart p s : occurs p s = false -> occurs p (trimStart s) = false.
Proof.
  induction s as [|c s IH]; [auto|].
  intros H; cbn [trimStart]; destruct (is_white_space c); [|exact H].
  rewrite occurs_unfold in H; apply orb_false_elim in H as [_ H]; auto.
Qed.

(** [trimStart] drops a prefix of white space, [trimEnd] a suffix. *)
Lemma trimStart_split s : exists a, s = a ++ trimStart s /\ all_ws a = true.
Proof.
  induction s as [|c s (a & E & A)]; [exists []; now split|].
  cbn [trimStart]; destruct (is_white_space c) eqn:W.
  - exists (c :: a); split; [cbn [app]; now rewrite <- E|simpl; now rewrite W].
  - exists []; now split.
Qed.

Lemma trimEnd_split s : exists w, s = trimEnd s ++ w /\ all_ws w = true.
Proof.
  destruct (trimStart_split (rev s)) as (a & E & A).
  exists (rev a); split; [|now apply all_ws_rev].
  unfold trimEnd; rewrite <- rev_app_distr, <- E; symmetry; apply rev_involutive.
Qed.

Lemma occurs_trimEnd p s : occurs p s = false -> occurs p (trimEnd s) = false.
Proof.
  intros H; destruct (occurs p (trimEnd s)) eqn:E; [|reflexivity].
  destruct (trimEnd_split s) as (w & S & _).
  apply (occurs_app_l _ _ w) in E; rewrite <- S in E; congruence.
Qed.

Lemma trimStart_head s :
  match trimStart s with
  | c :: _ => is_white_space c = false
  | [] => True
  end.
Proof.
  induction s as [|c s IH]; [exact I|].
  cbn [trimStart]; destruct (is_white_space c) eqn:W; [exact IH|exact W].
Qed.

Lemma trimStart_fixed s :
  match s with c :: _ => is_white_space c = false | [] => True end ->
  trimStart s = s.
Proof. destruct s as [|c s]; [reflexivity|]; simpl; now intros ->. Qed.

Lemma trim_ends s :
  match trim s with c :: _ => is_white_space c = false | [] => True end
  /\ match rev (trim s) with c :: _ => is_white_space c = false | [] => True end.
Proof.
  split.
  - unfold trim; pose proof (trimStart_head s) as H.
    destruct (trimEnd_split (trimStart s)) as (w & S & W).
    destruct (trimEnd (trimStart s)) as [|c y]; [exact I|].
    rewrite S in H; exact H.
  - unfold trim, trimEnd; rewrite rev_involutive; apply trimStart_head.
Qed.

Lemma trim_fixed s :
  match s with c :: _ => is_white_space c = false | [] => True end ->
  match rev s with c :: _ => is_white_space c = false | [] => True end ->
  trim s = s.
Proof.
  intros H1 H2; unfold trim, trimEnd.
  rewrite (trimStart_fixed s H1), (trimStart_fixed (rev s) H2); apply rev_involutive.
Qed.

Lemma occurs_fence_json s : occurs fence_json s = true -> occurs fence s = true.
Proof.
  induction s as [|c s IH].
  - discriminate.
  - rewrite (occurs_unfold fence_json (c :: s)), (occurs_unfold fence (c :: s)).
    intros H; apply orb_prop in H as [H | H]; [|rewrite (IH H); apply orb_true_r].
    apply starts_with_split in H; rewrite H.
    change fence_json with (fence ++ lit "json"); rewrite <- app_assoc.
    now rewrite starts_with_app.
Qed.

Lemma remove_all_none p s : occurs p s = false -> remove_all p s = s.
Proof.
  induction s as [|c s IH]; [reflexivity|].
  rewrite occurs_unfold; intros H; apply orb_false_elim in H as [H1 H2].
  rewrite remove_all_keep by assumption; now rewrite IH.
Qed.

Lemma cleanedText_no_fence t : occurs fence (cleanedText t) = false.
Proof.
  unfold cleanedText, trim.
  apply occurs_trimEnd, occurs_trimStart, remove_fence_none.
Qed.

(** X3: the cleaned text holds no fence, wherever the fences stood in the
    completion (inside a JSON string too), and neither begins nor ends with
    white space. *)
Theorem cleanedText_shape (generated : jsstring) :
  occurs fence (cleanedText generated) = false
  /\ match cleanedText generated with
     | c :: _ => is_white_space c = false
     | [] => True
     end
  /\ match rev (cleanedText generated) with
     | c :: _ => is_white_space c = false
     | [] => True
     end.
Proof.
  split; [apply cleanedText_no_fence|apply trim_ends].
Qed.

(** X4: cleaning is idempotent: a cleaned text is cleaned to itself. *)
Theorem cleanedText_idempotent (generated : jsstring) :
  cleanedText (cleanedText generated) = cleanedText generated.
Proof.
  pose proof (cleanedText_no_fence generated) as F.
  destruct (trim_ends (remove_all fence (remove_all fence_json generated)))
    as [H1 H2]; fold (cleanedText generated) in H1, H2.
  unfold cleanedText at 1.
  rewrite (remove_all_none fence_json).
  - rewrite (remove_all_none fence) by exact F; now apply trim_fixed.
  - destruct (occurs fence_json (cleanedText generated)) eqn:E; [|reflexivity].
    apply occurs_fence_json in E; congruence.
Qed.

(** ** When the handler calls the completion service *)

Lemma trim_nil_iff s : trim s = [] <-> all_ws s = true.
Proof.
  split; [|apply trim_all_ws].
  intros H; unfold trim in H.
  destruct (trimEnd_split (trimStart s)) as (w & S & W); rewrite H in S.
  destruct (trimStart_split s) as (a & E & A); rewrite S in E; rewrite E.
  now apply all_ws_app.
Qed.

Lemma trim_eqb_nil s : Str.eqb (trim s) [] = all_ws s.
Proof.
  destruct (all_ws s) eqn:A.
  - apply trim_nil_iff in A; now rewrite A.
  - apply eqb_neq; intros H; apply trim_nil_iff in H; congruence.
Qed.

Lemma value_is_null (v : value) : v = VNull \/ v <> VNull.
Proof. destruct v; [now left|right; discriminate..]. Qed.

(** What [POST] does with a body that is not [null]. *)
Lemma POST_body body :
  body <> VNull ->
  POST (Some body)
  = match get body (lit "text") with
    | Some (VStr s) => if all_ws s then bad_request else Fetch (prompt s) after_fetch
    | Some t => if truthy t then server_error else bad_request
    | None => bad_request
    end.
Proof.
  intros Hn; unfold POST.
  assert (E : forall t,
             match t with
             | None => bad_request
             | Some t =>
                 if negb (truthy t) then bad_request
                 else match t with
                      | VStr s => if Str.eqb (trim s) [] then bad_request
                                  else Fetch (prompt s) after_fetch
                      | _ => server_error
                      end
             end
             = match t with
               | Some (VStr s) => if all_ws s then bad_request
                                  else Fetch (prompt s) after_fetch
               | Some t => if truthy t then server_error else bad_request
               | None => bad_request
               end).
  { intros [[| b | n | s | l | ps]|]; try reflexivity.
    - destruct b; reflexivity.
    - simpl; destruct (Num.to_boolean n); reflexivity.
    - rewrite trim_eqb_nil; destruct s; reflexivity. }
  destruct body; try congruence; apply E.
Qed.

Lemma POST_classes body :
  body <> VNull ->
  (exists s, get body (lit "text") = Some (VStr s) /\ all_ws s = false
             /\ POST (Some body) = Fetch (prompt s) after_fetch)
  \/ (missing_text (get body (lit "text")) = true /\ POST (Some body) = bad_request)
  \/ (missing_text (get body (lit "text")) = false
      /\ POST (Some body) = server_error).
Proof.
  intros Hn; rewrite (POST_body body Hn).
  destruct (get body (lit "text")) as [[| b | n | s | l | ps]|];
    cbn [truthy missing_text negb].
  - right; left; now split.
  - destruct b; [right; right|right; left]; now split.
  - destruct (Num.to_boolean n); [right; right|right; left]; now split.
  - destruct (all_ws s) eqn:A; [right; left; now split|].
    left; exists s; now repeat split.
  - right; right; now split.
  - right; right; now split.
  - right; left; now split.
Qed.

(** X5: the handler calls the completion service exactly when the body of
    the request is not [null] and its [text] is a string with a code unit
    that is not white space, and the prompt it sends is the text between the
    two fixed parts of the prompt; it answers 400 exactly when the body is
    not [null] and its [text] is absent, white space only or another falsy
    value.  Every other request is answered 500. *)
Theorem POST_calls_iff (request : option value) :
  (forall p k,
      POST request = Fetch p k <->
      exists body s,
        request = Some body /\ get body (lit "text") = Some (VStr s)
        /\ all_ws s = false /\ p = prompt_before ++ s ++ prompt_after
        /\ k = after_fetch)
  /\ (POST request = bad_request <->
      exists body,
        request = Some body /\ body <> VNull
        /\ missing_text (get body (lit "text")) = true)
  /\ (POST request = server_error
      \/ POST request = bad_request
      \/ exists p, POST request = Fetch p after_fetch).
Proof.
  assert (N : forall h, (h = None \/ h = Some VNull) -> POST h = server_error)
    by (intros h [-> | ->]; reflexivity).
  destruct request as [body|]; [destruct (value_is_null body) as [-> | Hn]|].
  - (* the body is null *)
    rewrite (N (Some VNull)) by now right.
    split; [|split; [|now left]]; split; try discriminate.
    + intros (body & s & [= <-] & G & _); discriminate.
    + intros (body & [= <-] & H & _); congruence.
  - pose proof (POST_classes body Hn) as C.
    split; [|split].
    + intros p k; split.
      * intros H; destruct C as [(s & G & A & E) | [[_ E] | [_ E]]];
          rewrite E in H; try discriminate.
        injection H as <- <-; exists body, s; now repeat split.
      * intros (body' & s & [= <-] & G & A & -> & ->).
        rewrite (POST_body body Hn), G, A; reflexivity.
    + split.
      * intros H; destruct C as [(s & G & A & E) | [[M E] | [_ E]]];
          rewrite E in H; try discriminate.
        exists body; now repeat split.
      * intros (body' & [= <-] & _ & M).
        destruct C as [(s & G & A & E) | [[_ E] | [M' E]]]; [|exact E|congruence].
        rewrite G in M; destruct (eq_true_false_abs _ M A).
    + destruct C as [(s & G & A & E) | [[_ E] | [_ E]]]; rewrite E; eauto.
  - (* the body is not JSON *)
    rewrite (N None) by now left.
    split; [|split; [|now left]]; split; try discriminate.
    + intros (body & s & [=] & _).
    + intros (body & [=] & _).
Qed.

Lemma POST_calls_iff_witness :
  POST (Some (VObj [(lit "text", VStr (lit "Milk 2 $3.50"))]))
  = Fetch (prompt_before ++ lit "Milk 2 $3.50" ++ prompt_after) after_fetch.
Proof.
  apply (proj1 (POST_calls_iff (Some (VObj [(lit "text", VStr (lit "Milk 2 $3.50"))])))).
  exists (VObj [(lit "text", VStr (lit "Milk 2 $3.50"))]), (lit "Milk 2 $3.50").
  repeat split; reflexivity.
Defined.

(** ** The answers of the handler *)

(** The three ways [POST] starts. *)
Lemma POST_starts request :
  POST request = server_error \/ POST request = bad_request
  \/ exists p, POST request = Fetch p after_fetch.
Proof.
  destruct request as [body|]; [|now left].
  destruct (value_is_null body) as [-> | Hn]; [now left|].
  destruct (POST_classes body Hn) as [(s & _ & _ & E) | [[_ E] | [_ E]]]; eauto.
Qed.



(** ** The text taken from the answer of the completion service *)

Lemma get_opt_get v k : get_opt (Some v) k = get v k.
Proof. now destruct v. Qed.

Lemma generatedText_parts data :
  generatedText data
  = or_empty (get_opt (get_opt (first_parts data) (lit "0")) (lit "text")).
Proof. reflexivity. Qed.

(** X7: of the answer of the completion service only the first part of
    the first candidate is read: the other candidates and the other parts
    are dropped, not concatenated, and a first part without a truthy
    [text] gives the empty string whatever the other parts hold. *)
Theorem first_part_only (data c content p : value) (cs ps : list value) :
  get data (lit "candidates") = Some (VArr (c :: cs)) ->
  get c (lit "content") = Some content ->
  get content (lit "parts") = Some (VArr (p :: ps)) ->
  generatedText data = or_empty (get p (lit "text")).
Proof.
  intros C K P; rewrite generatedText_parts; unfold first_parts.
  rewrite C.
  change (get_opt (Some (VArr (c :: cs))) (lit "0")) with (Some c).
  rewrite get_opt_get, K, get_opt_get, P.
  change (get_opt (Some (VArr (p :: ps))) (lit "0")) with (Some p).
  now rewrite get_opt_get.
Qed.

Lemma first_part_only_witness :
  generatedText
    (VObj [(lit "candidates",
            VArr [VObj [(lit "content",
                         VObj [(lit "parts",
                                VArr [VObj [(lit "text", VStr (lit "{"))];
                                      VObj [(lit "text", VStr (lit "}"))]])])];
                  VObj [(lit "content",
                         VObj [(lit "parts",
                                VArr [VObj [(lit "text", VStr (lit "[]"))]])])]])])
  = VStr (lit "{").
Proof.
  apply (first_part_only _
           (VObj [(lit "content",
                   VObj [(lit "parts",
                          VArr [VObj [(lit "text", VStr (lit "{"))];
                                VObj [(lit "text", VStr (lit "}"))]])])])
           (VObj [(lit "parts",
                   VArr [VObj [(lit "text", VStr (lit "{"))];
                         VObj [(lit "text", VStr (lit "}"))]])])
           (VObj [(lit "text", VStr (lit "{"))])
           [VObj [(lit "content",
                   VObj [(lit "parts",
                          VArr [VObj [(lit "text", VStr (lit "[]"))]])])]]
           [VObj [(lit "text", VStr (lit "}"))]]); reflexivity.
Defined.

Lemma parse_empty : JSON.parse [] = None.
Proof. reflexivity. Qed.

(** X8: when the completion service answers [ok] with data that has no
    first candidate (no [candidates], [null], or an empty list), the
    handler answers 200 with the degraded record of an empty [raw]: a
    success status with an [error] field, not a failure status. *)
Theorem no_candidate (service : jsstring -> option response)
  (request : option value) (p : jsstring) (k : option response -> handler)
  (r : response) (data : value) :
  POST request = Fetch p k ->
  service p = Some r -> ok r = true -> json r = Some data -> data <> VNull ->
  get_opt (get data (lit "candidates")) (lit "0") = None ->
  serve service (POST request) = ([p], (200, degraded (VStr []))).
Proof.
  intros E S O J N C.
  destruct (POST_starts request) as [E' | [E' | [p' E']]];
    rewrite E' in E; try discriminate.
  injection E as -> <-; rewrite E'; cbn [serve]; rewrite S.
  unfold after_fetch; rewrite O, J; cbn [negb].
  assert (G : generatedText data = VStr []).
  { rewrite generatedText_parts; unfold first_parts; now rewrite C. }
  rewrite G.
  destruct data; try contradiction; reflexivity.
Qed.

Lemma no_candidate_witness :
  serve (fun _ => Some {| ok := true; status := 200; text := Some (lit "{}");
                          json := Some (VObj []) |})
        (POST (Some (VObj [(lit "text", VStr (lit "Milk 2 $3.50"))])))
  = ([prompt (lit "Milk 2 $3.50")], (200, degraded (VStr []))).
Proof.
  apply (no_candidate _ _ (prompt (lit "Milk 2 $3.50")) after_fetch
           {| ok := true; status := 200; text := Some (lit "{}");
              json := Some (VObj []) |} (VObj []));
    try reflexivity; discriminate.
Defined.

(** ** The display helpers on damaged data *)

Lemma throw_only {A} (c : completion A) :
  (forall a, c <> Return a) -> c = Throw TypeError.
Proof. destruct c as [a | []]; [intros H; now destruct (H a)|reflexivity]. Qed.

Lemma map_m_null l : In VNull l -> map_m format_item l = Throw TypeError.
Proof.
  induction l as [|a l IH]; [intros []|].
  intros [-> | H]; [reflexivity|].
  cbn [map_m]; destruct (format_item a) as [b | []]; [|reflexivity].
  cbn [bind]; now rewrite IH.
Qed.

Lemma reduce_m_null l :
  In VNull l -> forall init, reduce_m add_discount l init = Throw TypeError.
Proof.
  induction l as [|a l IH]; [intros []|].
  intros [-> | H] init; [reflexivity|].
  cbn [reduce_m]; destruct (add_discount init a) as [b | []]; [|reflexivity].
  cbn [bind]; now apply IH.
Qed.

(** X9: a list with a [null] entry makes both display helpers throw
    (reading [type] or [amount] of [null]), whatever the other entries
    are; nothing in the endpoint removes such an entry. *)
Theorem null_entry_throws (l : list value) :
  In VNull l ->
  formatValue (Some (VArr l)) = Throw TypeError
  /\ calculateTotalDiscounts (Some (VArr l)) = Throw TypeError
  /\ coerce (VObj [(taxes, VArr l)]) = VObj [(taxes, VArr l)].
Proof.
  intros H; repeat split.
  - cbn [formatValue]; now rewrite map_m_null.
  - cbn [calculateTotalDiscounts truthy negb]; now apply reduce_m_null.
Qed.

Lemma null_entry_throws_witness :
  formatValue (Some (VArr [VNull])) = Throw TypeError
  /\ calculateTotalDiscounts (Some (VArr [VNull])) = Throw TypeError
  /\ coerce (VObj [(taxes, VArr [VNull])]) = VObj [(taxes, VArr [VNull])].
Proof. apply (null_entry_throws [VNull]); now left. Defined.

(** Induction on a value and, with it, on the values inside it. *)
Lemma value_induction (P : value -> Prop) :
  P VNull -> (forall b, P (VBool b)) -> (forall n, P (VNum n)) ->
  (forall s, P (VStr s)) ->
  (forall l, Forall P l -> P (VArr l)) ->
  (forall ps, Forall (fun kv => P (snd kv)) ps -> P (VObj ps)) ->
  forall v, P v.
Proof.
  intros H0 H1 H2 H3 H4 H5.
  fix IH 1.
  intros [| b | n | s | l | ps].
  - exact H0.
  - apply H1.
  - apply H2.
  - apply H3.
  - apply H4; induction l as [|a l IHl]; constructor; [apply IH|exact IHl].
  - apply H5; induction ps as [|[k a] ps IHps]; constructor; [apply IH|exact IHps].
Qed.

(** [ToString] returns on a value without a property named [toString]. *)
Lemma to_string_returns v :
  no_toString v = true -> exists s, to_string v = Return s.
Proof.
  induction v as [| b | n | s | l IH | ps IH] using value_induction;
    intros H; cbn [to_string]; eauto.
  - cbn [no_toString] in H.
    assert (M : exists parts,
               map_m (fun x => match x with VNull => Return [] | _ => to_string x end) l
               = Return parts).
    { induction l as [|a l IHl]; [now exists []|].
      cbn [forallb] in H; apply andb_prop in H as [Ha Hl].
      inversion IH as [|? ? Pa Pl]; subst.
      destruct (IHl Pl Hl) as [parts E].
      destruct (Pa Ha) as [s E'].
      cbn [map_m]; rewrite E.
      destruct a; try rewrite E'; cbn [bind]; eauto. }
    destruct M as [parts ->]; cbn [bind]; eauto.
  - cbn [no_toString] in H; apply andb_prop in H as [H _].
    destruct (lookup (lit "toString") ps); [discriminate|eauto].
Qed.

Lemma lookup_no_toString k ps x :
  forallb (fun kv => no_toString (snd kv)) ps = true ->
  lookup k ps = Some x -> no_toString x = true.
Proof.
  induction ps as [|[k' v] ps IH]; [discriminate|].
  cbn [forallb lookup snd]; intros H; apply andb_prop in H as [Hv Hps].
  destruct (Str.eqb k k'); [now intros [= <-]|now apply IH].
Qed.

(** What is read from a value without a property named [toString] has
    none either. *)
Lemma get_no_toString v k x :
  no_toString v = true -> get v k = Some x -> no_toString x = true.
Proof.
  destruct v as [| b | n | s | l | ps]; cbn [get]; try discriminate.
  - intros _; destruct (array_index k).
    + destruct (nth_error s (Z.to_nat z)); [now intros [= <-]|discriminate].
    + destruct (Str.eqb k (lit "length")); [now intros [= <-]|discriminate].
  - cbn [no_toString]; intros H; destruct (array_index k).
    + intros E; apply nth_error_In in E.
      now apply (proj1 (forallb_forall _ _) H).
    + destruct (Str.eqb k (lit "length")); [now intros [= <-]|discriminate].
  - cbn [no_toString]; intros H; apply andb_prop in H as [_ H].
    now apply lookup_no_toString.
Qed.

Lemma amount_text_returns a :
  no_toString a = true -> exists s, amount_text a = Return s.
Proof.
  intros H; destruct a; try (now apply to_string_returns); cbn; eauto.
Qed.

Lemma format_item_returns item :
  no_toString item = true -> item <> VNull ->
  exists s, format_item item = Return s.
Proof.
  intros H N; unfold format_item.
  destruct (typeof item); eauto.
  destruct item as [| b | n | s | l | ps]; [contradiction|
    try (destruct (get _ (lit "type")) as [ty|] eqn:T; [|eauto];
         destruct (truthy ty); [|eauto];
         destruct (get _ (lit "amount")) as [am|] eqn:A; [|eauto];
         destruct (to_string_returns ty (get_no_toString _ _ _ H T)) as [t ->];
         destruct (amount_text_returns am (get_no_toString _ _ _ H A)) as [a ->];
         cbn [bind]; eauto)..].
Qed.

Lemma map_m_returns l :
  forallb no_toString l = true -> ~ In VNull l ->
  exists parts, map_m format_item l = Return parts.
Proof.
  induction l as [|a l IH]; [now exists []|].
  cbn [forallb]; intros H N; apply andb_prop in H as [Ha Hl].
  destruct (format_item_returns a Ha) as [s E].
  { intros ->; apply N; now left. }
  destruct (IH Hl) as [parts E'].
  { intros I; apply N; now right. }
  cbn [map_m]; rewrite E, E'; cbn [bind]; eauto.
Qed.

Lemma amount_number_returns a :
  match a with Some x => no_toString x = true | None => True end ->
  exists n, amount_number a = Return n.
Proof.
  intros H; destruct a as [x|]; [|cbn; eauto].
  destruct (to_string_returns x H) as [s E].
  destruct x; cbn [amount_number]; eauto;
    unfold parsed_or_zero, to_string_opt; rewrite E; cbn [bind]; eauto.
Qed.

Lemma reduce_m_returns l :
  forallb no_toString l = true -> ~ In VNull l ->
  forall init, exists n, reduce_m add_discount l init = Return n.
Proof.
  induction l as [|a l IH]; [intros _ _ init; now exists init|].
  cbn [forallb]; intros H N init; apply andb_prop in H as [Ha Hl].
  assert (E : exists n, add_discount init a = Return n).
  { destruct (amount_number_returns (get a (lit "amount"))) as [n E].
    { destruct (get a (lit "amount")) eqn:G; [|exact I].
      exact (get_no_toString _ _ _ Ha G). }
    destruct a; [destruct N; now left|
                 unfold add_discount; rewrite E; cbn [bind]; eauto..]. }
  destruct E as [n E]; cbn [reduce_m]; rewrite E; cbn [bind].
  apply IH; [exact Hl|intros I; apply N; now right].
Qed.

(** X10: on data in which no object has a property named [toString] and
    which, when it is a list, has no [null] entry, both display helpers
    return: the two ways they can throw are the only ones. *)
Theorem helpers_return (v : value) :
  no_toString v = true ->
  (forall l, v = VArr l -> ~ In VNull l) ->
  (exists s, formatValue (Some v) = Return s)
  /\ (exists n, calculateTotalDiscounts (Some v) = Return n).
Proof.
  intros H N; split.
  - destruct v as [| b | n | s | l | ps]; cbn [formatValue]; eauto.
    + destruct b; cbn; eauto.
    + cbn; eauto.
    + cbn in H; destruct (map_m_returns l H (N l eq_refl)) as [parts ->].
      cbn [bind]; eauto.
    + destruct (lookup (lit "amount") ps) as [am|] eqn:A; [|eauto].
      destruct (amount_text_returns am (get_no_toString (VObj ps) _ _ H A)) as [a ->].
      cbn [bind].
      destruct (lookup (lit "type") ps) as [ty|] eqn:T; [|eauto].
      destruct (truthy ty); [|eauto].
      destruct (to_string_returns ty (get_no_toString (VObj ps) _ _ H T)) as [t E].
      destruct ty; try (rewrite E; cbn [bind]; eauto).
      destruct (Str.eqb s (lit "USD")); eauto.
  - unfold calculateTotalDiscounts.
    destruct (negb (truthy v)); [eauto|].
    destruct v as [| b | n | s | l | ps]; eauto.
    + cbn in H; exact (reduce_m_returns l H (N l eq_refl) Num.zero).
    + destruct (lookup (lit "amount") ps) as [am|] eqn:A; [|eauto].
      apply amount_number_returns.
      exact (get_no_toString (VObj ps) _ _ H A).
Qed.

Lemma helpers_return_witness :
  (exists s,
     formatValue (Some (VArr [VObj [(lit "type", VStr (lit "Coupon"));
                                    (lit "amount", VNum (Num.of_Z 2))];
                              VStr (lit "1.50")])) = Return s)
  /\ (exists n,
        calculateTotalDiscounts
          (Some (VArr [VObj [(lit "type", VStr (lit "Coupon"));
                             (lit "amount", VNum (Num.of_Z 2))];
                       VStr (lit "1.50")])) = Return n).
Proof.
  apply (helpers_return
           (VArr [VObj [(lit "type", VStr (lit "Coupon"));
                        (lit "amount", VNum (Num.of_Z 2))];
                  VStr (lit "1.50")])).
  - reflexivity.
  - intros l [= <-] [H | [H | []]]; discriminate.
Defined.

(** * The component against the endpoint *)

(** ** The transport of a string *)

Import JSON.

Lemma hex_value_hex_digit n : 0 <= n < 16 -> hex_value (hex_digit n) = Some n.
Proof.
  intros H.
  assert (L : (Z.to_nat n < 16)%nat) by lia.
  rewrite <- (Z2Nat.id n) by lia.
  remember (Z.to_nat n) as k eqn:K; clear K H.
  do 16 (destruct k as [|k]; [reflexivity|]).
  lia.
Qed.

Lemma hex4_unicode_escape c tail :
  0 <= c < 65536 ->
  lex_string (unicode_escape c ++ tail) = more c 6 (lex_string tail).
Proof.
  intros H; unfold unicode_escape.
  change (lex_string ([92; 117; hex_digit (c / 4096 mod 16); hex_digit (c / 256 mod 16);
                       hex_digit (c / 16 mod 16); hex_digit (c mod 16)] ++ tail))
    with (match hex4 (hex_digit (c / 4096 mod 16)) (hex_digit (c / 256 mod 16))
                     (hex_digit (c / 16 mod 16)) (hex_digit (c mod 16)) with
          | Some u => more u 6 (lex_string tail)
          | None => None
          end).
  unfold hex4.
  rewrite !hex_value_hex_digit by (apply Z.mod_pos_bound; lia).
  replace (4096 * (c / 4096 mod 16) + 256 * (c / 256 mod 16) + 16 * (c / 16 mod 16)
           + c mod 16) with c; [reflexivity|].
  Z.div_mod_to_equations; lia.
Qed.

Lemma lex_string_plain c tail :
  32 <= c -> c <> 34 -> c <> 92 ->
  lex_string (c :: tail) = more c 1 (lex_string tail).
Proof.
  intros H1 H2 H3; cbn [lex_string].
  rewrite (proj2 (Z.eqb_neq c 34) H2), (proj2 (Z.eqb_neq c 92) H3).
  now rewrite (proj2 (Z.ltb_ge c 32) H1).
Qed.

Lemma lex_string_quote_unit c tail :
  0 <= c < 65536 ->
  lex_string (quote_unit c ++ tail)
  = more c (List.length (quote_unit c)) (lex_string tail).
Proof.
  intros H; unfold quote_unit.
  destruct (c =? 8) eqn:E1; [apply Z.eqb_eq in E1 as ->; reflexivity|].
  destruct (c =? 9) eqn:E2; [apply Z.eqb_eq in E2 as ->; reflexivity|].
  destruct (c =? 10) eqn:E3; [apply Z.eqb_eq in E3 as ->; reflexivity|].
  destruct (c =? 12) eqn:E4; [apply Z.eqb_eq in E4 as ->; reflexivity|].
  destruct (c =? 13) eqn:E5; [apply Z.eqb_eq in E5 as ->; reflexivity|].
  destruct (c =? 34) eqn:E6; [apply Z.eqb_eq in E6 as ->; reflexivity|].
  destruct (c =? 92) eqn:E7; [apply Z.eqb_eq in E7 as ->; reflexivity|].
  destruct ((c <? 32) || is_lead c || is_trail c) eqn:E8.
  - now rewrite hex4_unicode_escape.
  - apply orb_false_elim in E8 as [E8 _]; apply orb_false_elim in E8 as [E8 _].
    apply Z.ltb_ge in E8; apply Z.eqb_neq in E6, E7.
    now apply lex_string_plain.
Qed.

Lemma more_some c n s k : more c n (Some (s, k)) = Some (c :: s, (n + k)%nat).
Proof. reflexivity. Qed.

Lemma quote_body_cons c d r :
  quote_body (c :: d :: r)
  = if is_lead c && is_trail d then c :: d :: quote_body r
    else quote_unit c ++ quote_body (d :: r).
Proof. reflexivity. Qed.

(** Reading back a quoted string gives the string. *)
Lemma lex_string_quote_body s rest :
  code_units s = true ->
  lex_string (quote_body s ++ 34 :: rest)
  = Some (s, S (List.length (quote_body s))).
Proof.
  remember (List.length s) as n eqn:L.
  revert s L; induction n as [n IH] using lt_wf_ind; intros s L H.
  destruct s as [|c r]; [reflexivity|].
  cbn [code_units forallb] in H; apply andb_prop in H as [Hc Hr].
  assert (Bc : 0 <= c < 65536).
  { apply andb_prop in Hc as [A B]; apply Z.leb_le in A; apply Z.ltb_lt in B; lia. }
  destruct r as [|d r'].
  - cbn [quote_body]; rewrite lex_string_quote_unit by exact Bc.
    change (lex_string (34 :: rest)) with (Some (@nil Z, 1%nat)).
    rewrite more_some; f_equal; f_equal; lia.
  - rewrite quote_body_cons.
    destruct (is_lead c && is_trail d) eqn:P.
    + apply andb_prop in P as [Pc Pd].
      cbn [forallb] in Hr; apply andb_prop in Hr as [Hd Hr'].
      unfold is_lead in Pc; unfold is_trail in Pd.
      apply andb_prop in Pc as [Pc _]; apply andb_prop in Pd as [Pd _].
      apply Z.leb_le in Pc, Pd.
      cbn [app].
      rewrite (lex_string_plain c) by lia.
      rewrite (lex_string_plain d) by lia.
      assert (Lt : (List.length r' < n)%nat) by (cbn [List.length] in L; lia).
      rewrite (IH _ Lt r' eq_refl Hr').
      rewrite !more_some; cbn [List.length]; f_equal; f_equal; lia.
    + rewrite <- app_assoc, lex_string_quote_unit by exact Bc.
      assert (Lt : (List.length (d :: r') < n)%nat) by (cbn [List.length] in *; lia).
      rewrite (IH _ Lt (d :: r') eq_refl Hr).
      rewrite more_some, length_app; f_equal; f_equal; lia.
Qed.

Lemma tokenize_skip x rest :
  tokenize (List.length x) (x ++ rest) = tokenize 0 rest.
Proof. induction x as [|c x IH]; [reflexivity|exact IH]. Qed.

(** The tokens of a text that starts with a quoted string. *)
Lemma tokenize_quote s rest :
  code_units s = true ->
  tokenize 0 (quote s ++ rest)
  = match tokenize 0 rest with
    | Some ts => Some (TValue (VStr s) :: ts)
    | None => None
    end.
Proof.
  intros H; unfold quote.
  change (tokenize 0 (([34] ++ quote_body s ++ [34]) ++ rest))
    with (match lex_token 34 ((quote_body s ++ [34]) ++ rest) with
          | Some (t, n) =>
              match tokenize (Nat.pred n) ((quote_body s ++ [34]) ++ rest) with
              | Some ts => Some (t :: ts)
              | None => None
              end
          | None => None
          end).
  change (lex_token 34 ((quote_body s ++ [34]) ++ rest))
    with (match lex_string ((quote_body s ++ [34]) ++ rest) with
          | Some (s, n) => Some (TValue (VStr s), S n)
          | None => None
          end).
  rewrite <- app_assoc at 1.
  change ([34] ++ rest) with (34 :: rest).
  rewrite lex_string_quote_body by exact H.
  cbn [Nat.pred].
  replace (S (List.length (quote_body s))) with (List.length (quote_body s ++ [34]))
    by (rewrite length_app; cbn; lia).
  now rewrite tokenize_skip.
Qed.

Lemma request_round_trip s :
  code_units s = true ->
  JSON.parse (Client.request_body s) = Some (VObj [(lit "text", VStr s)]).
Proof.
  intros H; unfold JSON.parse, Client.request_body.
  change (tokenize 0 (stringify (VObj [(lit "text", VStr s)])))
    with (then_token TLBrace
            (then_token (TValue (VStr (lit "text")))
               (then_token TColon (tokenize 0 (quote s ++ [125]))))).
  now rewrite tokenize_quote.
Qed.

Lemma degraded_round_trip g :
  code_units g = true ->
  JSON.parse (JSON.stringify (degraded (VStr g))) = Some (degraded (VStr g)).
Proof.
  intros H; unfold JSON.parse, degraded.
  change (tokenize 0 (stringify (VObj [(lit "raw", VStr g); (lit "error", VStr parse_error)])))
    with (then_token TLBrace
            (then_token (TValue (VStr (lit "raw")))
               (then_token TColon
                  (tokenize 0 ((quote g ++ [44] ++ quote (lit "error") ++ [58]
                                  ++ quote parse_error) ++ [125]))))).
  rewrite <- app_assoc.
  now rewrite tokenize_quote.
Qed.

(** X11: the text the component sends arrives unchanged: for every string
    of 16-bit code units (quotation marks, control characters and lone
    surrogates included), the body written at line 174 of the component is
    read back at line 5 of the route as an object whose [text] is that
    string, so the handler answers 400 when the text is blank and calls
    the completion service with the text inside the prompt otherwise. *)
Theorem request_reaches_handler (t : jsstring) :
  code_units t = true ->
  Wire.request t = Some (VObj [(lit "text", VStr t)])
  /\ POST (Wire.request t)
     = if all_ws t then bad_request else Fetch (prompt_before ++ t ++ prompt_after) after_fetch.
Proof.
  intros H; unfold Wire.request; rewrite (request_round_trip t H).
  split; [reflexivity|].
  now rewrite POST_body by discriminate.
Qed.

Lemma request_reaches_handler_witness :
  Wire.request [77; 34; 92; 10; 55357; 56832; 56832]
  = Some (VObj [(lit "text", VStr [77; 34; 92; 10; 55357; 56832; 56832])])
  /\ POST (Wire.request [77; 34; 92; 10; 55357; 56832; 56832])
     = Fetch (prompt_before ++ [77; 34; 92; 10; 55357; 56832; 56832] ++ prompt_after)
         after_fetch.
Proof.
  apply (request_reaches_handler [77; 34; 92; 10; 55357; 56832; 56832]).
  reflexivity.
Defined.

Lemma sent_text_not_blank t :
  match trim t with [] => None | _ :: _ => Some t end = Some t -> all_ws t = false.
Proof.
  destruct (trim t) eqn:E; [discriminate|intros _].
  destruct (all_ws t) eqn:A; [|reflexivity].
  apply trim_nil_iff in A; congruence.
Qed.

(** X12: the guard of the component and the guard of the route agree: a
    text that [handleManualAnalysis] or [processImage] sends for analysis
    is never answered with 400 "No text provided"; the handler calls the
    completion service with it. *)
Theorem guards_agree (s : Client.state) (ocr : option jsstring) (t : jsstring) :
  code_units t = true ->
  Client.handleManualAnalysis s = Some t
  \/ snd (Client.processImage_end s ocr) = Some t ->
  POST (Wire.request t) = Fetch (prompt_before ++ t ++ prompt_after) after_fetch.
Proof.
  intros H S.
  assert (A : all_ws t = false).
  { destruct S as [S | S].
    - unfold Client.handleManualAnalysis in S.
      destruct (trim (Client.text s)) eqn:E; [discriminate|].
      injection S as <-; apply sent_text_not_blank; now rewrite E.
    - destruct ocr as [x|]; [|discriminate]; cbn [Client.processImage_end snd] in S.
      destruct (trim x) eqn:E; [discriminate|].
      injection S as <-; apply sent_text_not_blank; now rewrite E. }
  unfold Wire.request; rewrite (request_round_trip t H), POST_body by discriminate.
  change (get (VObj [(lit "text", VStr t)]) (lit "text")) with (Some (VStr t)).
  cbv beta iota; now rewrite A.
Qed.

Lemma guards_agree_witness :
  POST (Wire.request (lit " Milk 2 $3.50 "))
  = Fetch (prompt_before ++ lit " Milk 2 $3.50 " ++ prompt_after) after_fetch.
Proof.
  apply (guards_agree (with_text (lit " Milk 2 $3.50 ")) None (lit " Milk 2 $3.50 "));
    [reflexivity|left; reflexivity].
Defined.

(** The endpoint on a text that is sent. *)
Lemma endpoint_sent service t :
  code_units t = true -> all_ws t = false ->
  Wire.endpoint service t
  = Wire.answer_of (snd (serve service (Fetch (prompt t) after_fetch))).
Proof.
  intros H A; unfold Wire.endpoint, Wire.request.
  rewrite (request_round_trip t H), POST_body by discriminate.
  change (get (VObj [(lit "text", VStr t)]) (lit "text")) with (Some (VStr t)).
  cbv beta iota; now rewrite A.
Qed.

Lemma endpoint_blank service t :
  code_units t = true -> all_ws t = true ->
  Wire.endpoint service t = Some (400, Some (error_body "No text provided")).
Proof.
  intros H A; unfold Wire.endpoint, Wire.request.
  rewrite (request_round_trip t H), POST_body by discriminate.
  change (get (VObj [(lit "text", VStr t)]) (lit "text")) with (Some (VStr t)).
  cbv beta iota; now rewrite A.
Qed.

Lemma endpoint_ok service t r data :
  code_units t = true -> all_ws t = false ->
  service (prompt t) = Some r -> ok r = true -> json r = Some data ->
  data <> VNull ->
  Wire.endpoint service t
  = Some (200, JSON.parse (JSON.stringify (normalize_value (generatedText data)))).
Proof.
  intros H A S O J N; rewrite endpoint_sent by assumption.
  cbn [serve]; rewrite S; unfold after_fetch; rewrite O, J; cbn [negb].
  destruct data; try contradiction; reflexivity.
Qed.

Lemma analyze_not_ok s st body :
  Client.response_ok st = false ->
  Client.analyzeReceiptText s (Some (st, body)) = failed s Client.analysis_failed.
Proof.
  intros R; unfold Client.analyzeReceiptText, Client.analyze_end, Client.analysis_outcome.
  now rewrite R.
Qed.

(** X13: every failure of the endpoint looks the same in the component:
    for a blank text (400), a completion service that cannot be reached
    (500), one that answers with a failure status (that status, or 500),
    and one whose body is not JSON or is [null] (500), the component shows
    "Failed to analyze receipt. Please try again.", the message of the
    route is not shown, and the results of before stay. *)
Theorem endpoint_failures (service : jsstring -> option response)
  (s : Client.state) (t : jsstring) :
  code_units t = true ->
  all_ws t = true
  \/ service (prompt t) = None
  \/ (exists r, service (prompt t) = Some r /\ ok r = false
                /\ Client.response_ok (status r) = false)
  \/ (exists r, service (prompt t) = Some r /\ ok r = true
                /\ (json r = None \/ json r = Some VNull)) ->
  Client.analyzeReceiptText s (Wire.endpoint service t)
  = failed s Client.analysis_failed.
Proof.
  intros H C.
  destruct (all_ws t) eqn:A.
  { rewrite endpoint_blank by assumption; now apply analyze_not_ok. }
  rewrite endpoint_sent by assumption; cbn [serve].
  destruct C as [C | [C | [(r & C & O & R) | (r & C & O & J)]]]; [discriminate|rewrite C..].
  - now apply analyze_not_ok.
  - unfold after_fetch; rewrite O; cbn [negb].
    destruct (text r); [|now apply analyze_not_ok].
    unfold json_response.
    destruct ((200 <=? status r) && (status r <=? 599)
              && negb ((status r =? 204) || (status r =? 205) || (status r =? 304)));
      now apply analyze_not_ok.
  - unfold after_fetch; rewrite O; cbn [negb].
    destruct J as [-> | ->]; now apply analyze_not_ok.
Qed.

Lemma endpoint_failures_witness :
  Client.analyzeReceiptText (with_text example_receipt)
    (Wire.endpoint (failing 429) example_receipt)
  = failed (with_text example_receipt) Client.analysis_failed.
Proof.
  apply (endpoint_failures (failing 429) (with_text example_receipt) example_receipt);
    [reflexivity|].
  right; right; left.
  exists {| ok := false; status := 429; text := Some (lit "quota exceeded");
            json := None |}.
  repeat split.
Defined.

(** X14: when the completion is not JSON, the component shows "Could not
    parse structured data" as its error: the degraded record comes with
    status 200, the component reads its [error] field, and the raw text
    of the record is dropped; the results of before stay. *)
Theorem unparsable_completion_message (service : jsstring -> option response)
  (s : Client.state) (t : jsstring) (r : response) (data : value) (g : jsstring) :
  code_units t = true -> all_ws t = false ->
  service (prompt t) = Some r -> ok r = true -> json r = Some data ->
  data <> VNull ->
  generatedText data = VStr g -> code_units g = true ->
  JSON.parse (cleanedText g) = None ->
  Client.analyzeReceiptText s (Wire.endpoint service t)
  = failed s (VStr (lit "Could not parse structured data")).
Proof.
  intros H A S O J N G Hg P.
  rewrite (endpoint_ok service t r data) by assumption.
  rewrite G; unfold normalize_value, normalize; rewrite P.
  now rewrite degraded_round_trip.
Qed.

Lemma unparsable_completion_message_witness :
  Client.analyzeReceiptText (with_text example_receipt)
    (Wire.endpoint (stub (lit "Sorry, I cannot read this receipt.")) example_receipt)
  = failed (with_text example_receipt) (VStr (lit "Could not parse structured data")).
Proof.
  apply (unparsable_completion_message
           (stub (lit "Sorry, I cannot read this receipt."))
           (with_text example_receipt) example_receipt
           {| ok := true; status := 200;
              text := Some (lit "Sorry, I cannot read this receipt.");
              json := Some (completion_body (lit "Sorry, I cannot read this receipt.")) |}
           (completion_body (lit "Sorry, I cannot read this receipt."))
           (lit "Sorry, I cannot read this receipt."));
    try reflexivity; discriminate.
Defined.

(** X15: the component after an analysis whose completion is JSON, [w]
    being the normalized data as read back from the response: for [null]
    the generic failure message; for data with a truthy [error] field that
    field as the error, the rest of the data being dropped; otherwise the
    data become the results and the error is cleared. *)
Theorem analysis_result (service : jsstring -> option response)
  (s : Client.state) (t : jsstring) (r : response) (data : value)
  (g : jsstring) (v w : value) :
  code_units t = true -> all_ws t = false ->
  service (prompt t) = Some r -> ok r = true -> json r = Some data ->
  data <> VNull ->
  generatedText data = VStr g ->
  JSON.parse (cleanedText g) = Some v ->
  JSON.parse (JSON.stringify (coerce v)) = Some w ->
  Client.analyzeReceiptText s (Wire.endpoint service t)
  = if is_null w then failed s Client.analysis_failed
    else if truthy (or_empty (get w (lit "error")))
         then failed s (or_empty (get w (lit "error")))
         else analyzed s w.
Proof.
  intros H A S O J N G P T.
  rewrite (endpoint_ok service t r data) by assumption.
  rewrite G; unfold normalize_value, normalize; rewrite P, T.
  unfold Client.analyzeReceiptText, Client.analyze_end, Client.analysis_outcome.
  change (Client.response_ok 200) with true; cbv beta iota.
  unfold or_empty.
  destruct w; try reflexivity;
    (destruct (get _ (lit "error")) as [e|]; [destruct (truthy e) eqn:E; [rewrite E|]|]; reflexivity).
Qed.

Lemma analysis_result_witness :
  Client.analyzeReceiptText (with_text example_receipt)
    (Wire.endpoint (stub (json_text "{'merchant': 'STORE A', 'total': 4.06}"))
       example_receipt)
  = analyzed (with_text example_receipt)
      (VObj [(lit "merchant", VStr (lit "STORE A"));
             (lit "total", VNum (Num.of_decimal false 406 (-2)))]).
Proof.
  apply (analysis_result
           (stub (json_text "{'merchant': 'STORE A', 'total': 4.06}"))
           (with_text example_receipt) example_receipt
           {| ok := true; status := 200;
              text := Some (json_text "{'merchant': 'STORE A', 'total': 4.06}");
              json := Some (completion_body
                              (json_text "{'merchant': 'STORE A', 'total': 4.06}")) |}
           (completion_body (json_text "{'merchant': 'STORE A', 'total': 4.06}"))
           (json_text "{'merchant': 'STORE A', 'total': 4.06}")
           (VObj [(lit "merchant", VStr (lit "STORE A"));
                  (lit "total", VNum (Num.of_decimal false 406 (-2)))])
           (VObj [(lit "merchant", VStr (lit "STORE A"));
                  (lit "total", VNum (Num.of_decimal false 406 (-2)))]));
    try (vm_compute; reflexivity); discriminate.
Defined.




(** X18: a file that is neither JPEG nor PNG is refused without
    recognition or analysis, yet the text and the results of before are
    already cleared; the preview of before stays. *)
Theorem invalid_file_rejected (s : Client.state) (f : Client.file)
  (ocr : option jsstring) (endpoint : jsstring -> Client.answer) :
  Client.type f <> lit "image/jpeg" -> Client.type f <> lit "image/png" ->
  Client.handleFileChange s (Some f) = (Client.upload s (Some f) ocr endpoint, false)
  /\ Client.error (Client.upload s (Some f) ocr endpoint) = Some Client.invalid_file
  /\ Client.text (Client.upload s (Some f) ocr endpoint) = []
  /\ Client.structuredData (Client.upload s (Some f) ocr endpoint) = None
  /\ Client.image (Client.upload s (Some f) ocr endpoint) = Client.image s.
Proof.
  intros J P; unfold Client.upload, Client.handleFileChange.
  cbn [existsb Client.validTypes].
  rewrite (proj2 (eqb_neq _ _) J), (proj2 (eqb_neq _ _) P).
  now repeat split.
Qed.

Lemma invalid_file_rejected_witness :
  Client.handleFileChange (with_text example_receipt)
    (Some {| Client.type := lit "application/pdf"; Client.dataURL := None |})
  = (Client.upload (with_text example_receipt)
       (Some {| Client.type := lit "application/pdf"; Client.dataURL := None |})
       (Some example_receipt) (fun _ => None), false)
  /\ Client.error
       (Client.upload (with_text example_receipt)
          (Some {| Client.type := lit "application/pdf"; Client.dataURL := None |})
          (Some example_receipt) (fun _ => None)) = Some Client.invalid_file
  /\ Client.text
       (Client.upload (with_text example_receipt)
          (Some {| Client.type := lit "application/pdf"; Client.dataURL := None |})
          (Some example_receipt) (fun _ => None)) = []
  /\ Client.structuredData
       (Client.upload (with_text example_receipt)
          (Some {| Client.type := lit "application/pdf"; Client.dataURL := None |})
          (Some example_receipt) (fun _ => None)) = None
  /\ Client.image
       (Client.upload (with_text example_receipt)
          (Some {| Client.type := lit "application/pdf"; Client.dataURL := None |})
          (Some example_receipt) (fun _ => None)) = None.
Proof.
  apply (invalid_file_rejected (with_text example_receipt)
           {| Client.type := lit "application/pdf"; Client.dataURL := None |}
           (Some example_receipt) (fun _ => None)); discriminate.
Defined.

(** * The page and the session *)

Import View Session.

Lemma not_blank t c r : trim t = c :: r -> all_ws t = false.
Proof.
  intros T; destruct (all_ws t) eqn:W; [|reflexivity].
  apply trim_nil_iff in W; congruence.
Qed.

Lemma failed_truthy a e : Client.analysis_outcome a = Client.Failed e -> truthy e = true.
Proof.
  unfold Client.analysis_outcome.
  destruct a as [[st body]|]; [|now intros [= <-]].
  destruct (Client.response_ok st); [|now intros [= <-]].
  destruct body as [data|]; [|now intros [= <-]].
  destruct data; try (now intros [= <-]);
    (destruct (get _ (lit "error")) as [x|]; [|discriminate];
     destruct (truthy x) eqn:T; [now intros [= <-]|discriminate]).
Qed.

(** The state after an analysis, from a state without results on the
    page. *)
Lemma settled_analyze s a c r :
  Client.isProcessing s = false ->
  match Client.structuredData s with Some d => truthy d | None => false end = false ->
  trim (Client.text s) = c :: r ->
  settled (Client.analyzeReceiptText s a).
Proof.
  intros P N T; unfold Client.analyzeReceiptText, Client.analyze_end.
  destruct (Client.analysis_outcome a) as [e | d] eqn:O;
    (split; [exact P|split; [reflexivity|split]]); cbn.
  - intros e' [= <-]; exact (failed_truthy a e O).
  - intros d' E D; rewrite E, D in N; discriminate.
  - discriminate.
  - intros d' _ _; split; [reflexivity|exact (not_blank _ _ _ T)].
Qed.

Lemma settled_handle s e : settled s -> settled (handle s e).
Proof.
  intros I; pose proof I as (P & A & T & R).
  destruct e as [f ocr a | a]; cbn [handle].
  - unfold Client.upload, Client.handleFileChange.
    destruct f as [f|]; [|exact I].
    destruct (existsb (Str.eqb (Client.type f)) Client.validTypes).
    + destruct ocr as [t|]; cbn [Client.processImage_end].
      * destruct (trim t) eqn:E.
        { repeat split; try assumption; discriminate. }
        now apply (settled_analyze _ a z j).
      * repeat split; try assumption; try discriminate.
        cbn; now intros e [= <-].
    + repeat split; try assumption; try discriminate.
      cbn; now intros e [= <-].
  - destruct (button_shown s && negb (button_disabled s)) eqn:B; [|exact I].
    apply andb_prop in B as [B _]; unfold button_shown in B.
    apply andb_prop in B as [B N]; apply negb_true_iff in N.
    unfold Client.reanalyze, Client.handleManualAnalysis.
    destruct (trim (Client.text s)) eqn:E; [exact I|].
    now apply (settled_analyze s a z j).
Qed.

(** X19: in a session whose events (a file is chosen, the button of the
    analysis is clicked) are handled one after the other, after every
    event: neither the recognition nor the analysis is marked as under
    way; an error in the state is a truthy value, so it is on the page;
    results are on the page only without an error and with a recognized
    text that is not blank; and the button of the analysis, when it is on
    the page, is never disabled. *)
Theorem session_settled (es : list event) :
  Client.isProcessing (session es) = false
  /\ Client.isAnalyzing (session es) = false
  /\ (forall e, Client.error (session es) = Some e -> truthy e = true)
  /\ (results_shown (session es) = true ->
      Client.error (session es) = None /\ all_ws (Client.text (session es)) = false)
  /\ (button_shown (session es) = true -> button_disabled (session es) = false).
Proof.
  assert (S : settled (session es)).
  { unfold session.
    assert (I : settled Client.initial) by (repeat split; discriminate).
    revert I; generalize Client.initial.
    induction es as [|e es IH]; intros s I; [exact I|].
    cbn [fold_left]; apply IH; now apply settled_handle. }
  destruct S as (P & A & T & R).
  split; [exact P|split; [exact A|split; [exact T|split]]]; intros H.
  - unfold results_shown in H; apply andb_prop in H as [_ H].
    destruct (Client.structuredData (session es)) as [x|] eqn:E; [|discriminate].
    exact (R x eq_refl H).
  - unfold button_shown in H; unfold button_disabled.
    apply andb_prop in H as [H _]; apply andb_prop in H as [H1 H2].
    apply negb_true_iff in H2; rewrite H2.
    now destruct (Client.text (session es)).
Qed.

Lemma session_settled_witness :
  Client.error
    (session [Choose (Some {| Client.type := lit "image/png"; Client.dataURL := None |})
                (Some example_receipt)
                (Some (200, Some (VObj [(lit "merchant", VStr (lit "STORE A"))])))])
  = None
  /\ all_ws
       (Client.text
          (session [Choose (Some {| Client.type := lit "image/png";
                                    Client.dataURL := None |})
                      (Some example_receipt)
                      (Some (200, Some (VObj [(lit "merchant", VStr (lit "STORE A"))])))]))
     = false.
Proof.
  apply (proj1 (proj2 (proj2 (proj2
           (session_settled
              [Choose (Some {| Client.type := lit "image/png"; Client.dataURL := None |})
                 (Some example_receipt)
                 (Some (200, Some (VObj [(lit "merchant", VStr (lit "STORE A"))])))]))))).
  reflexivity.
Defined.





Lemma charge_shape_cases x :
  (exists l, charge_shape x = VArr l) \/ truthy (charge_shape x) = false.
Proof.
  destruct x as [| b | n | s | l | ps]; cbn [charge_shape]; eauto.
  - destruct (truthy (VBool b)) eqn:T; eauto.
  - destruct (truthy (VNum n)) eqn:T; eauto.
  - destruct (truthy (VStr s)) eqn:T; eauto.
Qed.

(** X21: for data normalized by the route, the single row of the
    fallback (lines 403-410 and 465-470, through [formatValue]) is never
    reached: a section of charges has no table or the rows of a list. *)
Theorem fallback_unreachable (v : value) (t : jsstring) :
  taxes_section (get (coerce v) taxes) <> Return (Fallback t)
  /\ discounts_section (get (coerce v) discounts) <> Return (Fallback t).
Proof.
  rewrite get_coerce_taxes, get_coerce_discounts.
  split.
  - destruct (get v taxes) as [x|]; cbn [option_map taxes_section]; [|discriminate].
    destruct (charge_shape_cases x) as [[l ->] | ->]; [|discriminate].
    cbn [truthy].
    destruct (map_m (row "Tax") l) as [rows | []]; discriminate.
  - destruct (get v discounts) as [x|]; cbn [option_map discounts_section];
      [|discriminate].
    destruct (charge_shape_cases x) as [[l ->] | ->]; [|discriminate].
    cbn [truthy].
    destruct (map_m (row "Discount") l) as [rows | []]; cbn [bind]; [|discriminate].
    destruct (1 <? Z.of_nat (List.length l)); cbn [bind]; [|discriminate].
    destruct (calculateTotalDiscounts (Some (VArr l))) as [x' | []]; discriminate.
Qed.

Lemma fallback_unreachable_witness :
  taxes_section (get (coerce (VObj [(taxes, VNum (Num.of_Z 5))])) taxes)
  <> Return (Fallback (lit "5.00"))
  /\ discounts_section (get (coerce (VObj [(taxes, VNum (Num.of_Z 5))])) discounts)
     <> Return (Fallback (lit "5.00")).
Proof.
  apply (fallback_unreachable (VObj [(taxes, VNum (Num.of_Z 5))]) (lit "5.00")).
Defined.
